(** * The portfolio content loader of app.py

    A shallow embedding of the class [PortfolioData] of [src/app.py]: the
    CSV loader [_load_from_csv], the three category loaders and
    [get_portfolio_data], with the properties of the loader's contract.

    Conventions of the embedding.
    - Text is a [string]: a sequence of code points below 256.
    - A Python [dict] with few dynamic keys is a [gmap]; the dict literals
      with fixed keys are records.
    - A call of [logging.warning] or [logging.error] appends a diagnostic
      to a log that every computation carries.
    - A computation ends with a value or with a raised exception. *)

From Stdlib Require Import Ascii String.
From stdpp Require Import base option list strings gmap fin_maps.

Open Scope string_scope.
Open Scope list_scope.

(** ** Python values, exceptions and diagnostics *)

(** The values a row built by [csv.DictReader] can hold: a parsed field, the
    [None] that fills a short row, and the list of surplus fields of a long
    row. *)
Inductive pyval : Type :=
  | VStr (s : string)
  | VNone
  | VList (l : list string).

(** A row: keys are column names, or [None], the default [restkey] under
    which [csv.DictReader] stores the surplus fields. *)
Abbreviation dict := (gmap (option string) pyval).

(** The exceptions of the model. [ReadError] is any exception raised while
    the file is opened, decoded or parsed ([OSError], [UnicodeDecodeError],
    [csv.Error]). All of them are subclasses of [Exception]. *)
Inductive exn : Type :=
  | ReadError
  | KeyError (k : string)
  | AttributeError.

Inductive level : Type := WARNING | ERROR.

(** The three messages the loader logs. *)
Inductive message : Type :=
  | NotFound (file_path : string)
      (* f"{file_path} not found. Returning empty list." *)
  | SkippingInvalidRow (file_path : string) (row : dict)
      (* f"Skipping invalid row in {file_path}: {row}" *)
  | ErrorReading (file_path : string) (e : exn)
      (* f"Error reading {file_path}: {e}" *).

Record diagnostic : Type := Diag { diag_level : level; diag_message : message }.

Definition warning (m : message) : diagnostic := Diag WARNING m.
Definition error (m : message) : diagnostic := Diag ERROR m.

(** ** Computations: a log and a result *)

Inductive result (A : Type) : Type :=
  | Ok (a : A)
  | Raise (e : exn).
Arguments Ok {A} a.
Arguments Raise {A} e.

Definition M (A : Type) : Type := (list diagnostic * result A)%type.

Definition ret {A} (a : A) : M A := ([], Ok a).
Definition raise {A} (e : exn) : M A := ([], Raise e).
Definition log (d : diagnostic) : M unit := ([d], Ok tt).

Definition bind {A B} (m : M A) (k : A → M B) : M B :=
  match m with
  | (l, Ok a) => let '(l', r) := k a in (l ++ l', r)
  | (l, Raise e) => (l, Raise e)
  end.

Notation "'do' x <- m ; k" := (bind m (fun x => k))
  (at level 10, x name, m at level 100, k at level 200,
   format "'[v' 'do'  x  <-  m ; '/' k ']'").
Notation "'run' m ; k" := (bind m (fun _ => k))
  (at level 10, m at level 100, k at level 200,
   format "'[v' 'run'  m ; '/' k ']'").

(** [try: body except Exception as e: handler e]. *)
Definition try_except {A} (body : M A) (handler : exn → M A) : M A :=
  match body with
  | (l, Ok a) => (l, Ok a)
  | (l, Raise e) => let '(l', r) := handler e in (l ++ l', r)
  end.

(** A [for] loop whose body may log and raise and which appends to a list. *)
Fixpoint for_each {A B} (body : A → list B → M (list B)) (xs : list A)
    (acc : list B) : M (list B) :=
  match xs with
  | [] => ret acc
  | x :: xs' => do acc' <- body x acc; for_each body xs' acc'
  end.

Definition returns {A} (m : M A) : Prop := ∃ a, m.2 = Ok a.
Definition raises {A} (m : M A) : Prop := ∃ e, m.2 = Raise e.

(** ** Strings: [str.split(',')], [','.join], [str.lower] *)

(** [s.split(sep)] for a one-character separator: never the empty list. *)
Fixpoint split (sep : ascii) (s : string) : list string :=
  match s with
  | EmptyString => [EmptyString]
  | String c s' =>
      if Ascii.eqb c sep then EmptyString :: split sep s'
      else match split sep s' with
           | [] => [String c EmptyString]
           | w :: ws => String c w :: ws
           end
  end.

(** [sep.join(l)]. *)
Fixpoint join (sep : string) (l : list string) : string :=
  match l with
  | [] => EmptyString
  | [x] => x
  | x :: rest => x +:+ sep +:+ join sep rest
  end.

Definition comma : ascii := ","%char.

(** [str.lower] on one code point below 256: the letters A-Z and the
    accented capitals U+00C0-U+00DE (U+00D7, the multiplication sign, apart)
    move up by 32. *)
Definition lower_char (c : ascii) : ascii :=
  let n := nat_of_ascii c in
  if ((65 <=? n) && (n <=? 90)
      || (192 <=? n) && (n <=? 222) && negb (n =? 215))%nat
  then ascii_of_nat (n + 32) else c.

Fixpoint lower (s : string) : string :=
  match s with
  | EmptyString => EmptyString
  | String c s' => String (lower_char c) (lower s')
  end.

(** ** The file system, as [csv.reader] sees it *)

(** A file that exists is described by what [csv.reader] makes of it: the
    records it yields, in order, each a list of fields (the empty list for a
    blank line), and whether the read then fails with an exception instead
    of reaching the end of the file. A file that cannot be opened yields no
    record and fails. *)
Record file : Type := File { records : list (list string); failure : bool }.

(** [os.path.exists file_path] is [is_Some (fs !! file_path)]. *)
Abbreviation filesystem := (gmap string file).

(** ** [csv.DictReader] *)

(** [dict(zip(fieldnames, row))]: pairs are stored from left to right, so
    that of two equal column names the later one wins. *)
Definition dict_zip (fieldnames row : list string) : dict :=
  foldl (λ d kv, <[Some kv.1 := VStr kv.2]> d) ∅ (zip fieldnames row).

(** One row of [DictReader.__next__], with [restkey] and [restval] at their
    default [None]. *)
Definition DictReader_row (fieldnames row : list string) : dict :=
  let d := dict_zip fieldnames row in
  let lf := length fieldnames in
  let lr := length row in
  if (lf <? lr)%nat then <[None := VList (drop lf row)]> d
  else if (lr <? lf)%nat then
    foldl (λ d key, <[Some key := VNone]> d) d (drop lr fieldnames)
  else d.

Definition blank (row : list string) : bool :=
  match row with [] => true | _ => false end.

(** The rows [DictReader] yields: the first record is the header, blank
    records after it are passed over. *)
Definition DictReader (recs : list (list string)) : list dict :=
  match recs with
  | [] => []
  | fieldnames :: rest =>
      map (DictReader_row fieldnames) (filter (λ r, blank r = false) rest)
  end.

(** ** [PortfolioData._load_from_csv] *)

(** [field in row]. *)
Definition contains (row : dict) (field : string) : bool :=
  bool_decide (is_Some (row !! Some field)).

(** [all(field in row for field in expected_fields)]. *)
Definition has_fields (expected_fields : list string) (row : dict) : bool :=
  forallb (contains row) expected_fields.

(** The body of the [for row in reader] loop. *)
Definition load_row (file_path : string) (expected_fields : list string)
    (row : dict) (data : list dict) : M (list dict) :=
  if negb (has_fields expected_fields row) then
    run log (warning (SkippingInvalidRow file_path row));
    ret data
  else ret (data ++ [row]).

(** The [with open(...)] block: the loop runs over the rows the reader
    yields; a failing read raises out of it. *)
Definition read_rows (file_path : string) (expected_fields : list string)
    (f : file) : M (list dict) :=
  do data <- for_each (load_row file_path expected_fields)
               (DictReader (records f)) [];
  if failure f then raise ReadError else ret data.

Definition _load_from_csv (fs : filesystem) (file_path : string)
    (expected_fields : list string) : M (list dict) :=
  match fs !! file_path with
  | None =>
      run log (warning (NotFound file_path));
      ret []
  | Some f =>
      try_except
        (read_rows file_path expected_fields f)
        (λ e, run log (error (ErrorReading file_path e)); ret [])
  end.

(** [os.path.join], on a POSIX system, for two relative components. *)
Definition os_path_join (a b : string) : string := a +:+ "/" +:+ b.

Definition certifications_fields : list string :=
  ["title"; "issuer"; "date"; "category"; "url"].

Definition projects_fields : list string :=
  ["title"; "description"; "tech_stack"; "category"; "github_url";
   "demo_url"; "is_current"; "image_url"].

Definition blog_posts_fields : list string :=
  ["title"; "date"; "description"; "url"; "image_url"].

(** ** [PortfolioData.load_certifications], [load_blog_posts] *)

Definition load_certifications (fs : filesystem) : M (list dict) :=
  let csv_path := os_path_join "data" "certifications.csv" in
  let expected_fields := certifications_fields in
  _load_from_csv fs csv_path expected_fields.

Definition load_blog_posts (fs : filesystem) : M (list dict) :=
  let csv_path := os_path_join "data" "blog_posts.csv" in
  let expected_fields := blog_posts_fields in
  _load_from_csv fs csv_path expected_fields.

(** ** [PortfolioData.load_projects] *)

(** [row[key]]. *)
Definition getitem (row : dict) (key : string) : M pyval :=
  match row !! Some key with
  | Some v => ret v
  | None => raise (KeyError key)
  end.

(** Truth value of a Python object: the empty string, [None] and the empty
    list are false. *)
Definition truthy (v : pyval) : bool :=
  match v with
  | VStr s => negb (bool_decide (s = ""))
  | VNone => false
  | VList l => negb (bool_decide (l = []))
  end.

(** [v or default]. *)
Definition or_else (v : pyval) (default : string) : pyval :=
  if truthy v then v else VStr default.

(** [v.split(',')]: only a string has the method. *)
Definition split_method (v : pyval) : M (list string) :=
  match v with
  | VStr s => ret (split comma s)
  | _ => raise AttributeError
  end.

(** [v.lower()]: only a string has the method. *)
Definition lower_method (v : pyval) : M string :=
  match v with
  | VStr s => ret (lower s)
  | _ => raise AttributeError
  end.

Module Project.
(** The dict literal [project] of [load_projects]. *)
Record t : Type := Make {
  title : pyval;
  description : pyval;
  tech_stack : list string;
  category : pyval;
  github_url : pyval;
  demo_url : pyval;
  is_current : bool;
  image_url : pyval
}.
End Project.

(** The dict literal of the loop of [load_projects]; its entries are
    evaluated in the order they are written. *)
Definition make_project (row : dict) : M Project.t :=
  do title <- getitem row "title";
  do description <- getitem row "description";
  do cond <- getitem row "tech_stack";
  do tech_stack <-
    (if truthy cond
     then (do raw <- getitem row "tech_stack"; split_method raw)
     else ret ["Unknown"]);
  do category <- getitem row "category";
  do github_url <- getitem row "github_url";
  do demo_url <- getitem row "demo_url";
  do raw_current <- getitem row "is_current";
  do lowered <- lower_method raw_current;
  do image_url <- getitem row "image_url";
  ret {| Project.title := or_else title "Untitled Project";
         Project.description := or_else description "No description provided";
         Project.tech_stack := tech_stack;
         Project.category := or_else category "other";
         Project.github_url := or_else github_url "#";
         Project.demo_url := or_else demo_url "#";
         Project.is_current := bool_decide (lowered = "true");
         Project.image_url :=
           or_else image_url "/static/images/projects/default.png" |}.

(** The body of the loop of [load_projects]. *)
Definition project_step (row : dict) (projects : list Project.t)
    : M (list Project.t) :=
  do project <- make_project row;
  ret (projects ++ [project]).

Definition load_projects (fs : filesystem) : M (list Project.t) :=
  let csv_path := os_path_join "data" "projects.csv" in
  let expected_fields := projects_fields in
  do projects_data <- _load_from_csv fs csv_path expected_fields;
  for_each project_step projects_data [].

(** ** [PortfolioData.get_portfolio_data] *)

Module Portfolio.
Record entry : Type := Entry { entry_title : string; entry_description : string }.

Record education_t : Type :=
  Education { degree : string; level : string; courses : string }.

Record contact_t : Type := Contact {
  email : string;
  whatsapp : string;
  whatsapp_url : string;
  linkedin : string;
  linkedin_url : string;
  github : string;
  github_url : string;
  blogger : string
}.

Record stats_t : Type := Stats {
  projects_completed : string;
  technologies_mastered : string;
  years_coding : string;
  github_repos : string
}.

(** The dict that [get_portfolio_data] returns. *)
Record t : Type := Make {
  name : string;
  title : string;
  about : string;
  experience : list entry;
  education : education_t;
  blog_posts : list dict;
  projects : list Project.t;
  certifications : list dict;
  contact : contact_t;
  stats : stats_t
}.
End Portfolio.

Definition static_about : string :=
  "A results-driven Computer Science student with over five years of hands-on experience in full-stack development and AI. I have a proven ability to build high-performance, ML-powered applications, lead technical teams, and educate peers through workshops and technical articles. My experience includes a web development internship where I developed over 22 unique web pages for a large-scale e-commerce marketplace. I am passionate about developing scalable, well-documented software and am always eager to learn new technologies.".

Definition static_experience : list Portfolio.entry :=
  [ Portfolio.Entry "Web Development Intern"
      "Developed over 22 unique web pages and components for a large-scale e-commerce marketplace project within one month. Contributed to a significant project that has been under continuous development for two years, demonstrating adaptability and rapid integration into existing complex codebase.";
    Portfolio.Entry "Technical Educator & Workshop Leader"
      "Provided private lessons in algorithmics, problem-solving, and web development. Organized and led comprehensive workshops on Flutter, software design, API/backend architecture, AI/ML, and LLM API integration.";
    Portfolio.Entry "Project Team Leader & System Architect"
      "Led development teams of 3-5 members in delivering complex software projects from conception to deployment. Created comprehensive system architecture using UML diagrams. Developed detailed API documentation and technical specifications. Implemented software design patterns and best practices." ].

Definition static_education : Portfolio.education_t :=
  Portfolio.Education
    "Bachelor of Science in Computer Science"
    "ISITCom (Higher Institute of Information and Communication Technologies), Sousse, Tunisia. Expected Graduation: June 2025 - Current Year: 3rd Year"
    "Relevant Coursework: Data Structures & Algorithms, Database Systems, Software Engineering, Machine Learning, Web Development, Mobile Application Development, Computer Vision".

Definition static_contact : Portfolio.contact_t :=
  {| Portfolio.email := "ademyoussfi57@gmail.com";
     Portfolio.whatsapp := "+216 55 905 236";
     Portfolio.whatsapp_url := "https://wa.me/21655905236";
     Portfolio.linkedin := "Adem Youssfi";
     Portfolio.linkedin_url :=
       "https://www.linkedin.com/in/adem-youssfi-2289672a4";
     Portfolio.github := "Ad2m1109";
     Portfolio.github_url := "https://github.com/Ad2m1109";
     Portfolio.blogger := "behindthecodebyadem.blogspot.com" |}.

Definition static_stats : Portfolio.stats_t :=
  {| Portfolio.projects_completed := "40+";
     Portfolio.technologies_mastered := "24+";
     Portfolio.years_coding := "5+";
     Portfolio.github_repos := "40+" |}.

(** The entries of the returned dict are evaluated in the order they are
    written: blog posts, then projects, then certifications. *)
Definition get_portfolio_data (fs : filesystem) : M Portfolio.t :=
  do blog_posts <- load_blog_posts fs;
  do projects <- load_projects fs;
  do certifications <- load_certifications fs;
  ret {| Portfolio.name := "Adem Youssfi";
         Portfolio.title :=
           "AI Expert | Full Stack Developer | Technical Educator";
         Portfolio.about := static_about;
         Portfolio.experience := static_experience;
         Portfolio.education := static_education;
         Portfolio.blog_posts := blog_posts;
         Portfolio.projects := projects;
         Portfolio.certifications := certifications;
         Portfolio.contact := static_contact;
         Portfolio.stats := static_stats |}.

(** ** Sample files *)

Definition certifications_header : list string :=
  ["title"; "issuer"; "date"; "category"; "url"].

(** [[
title,issuer,date,category,url
AWS Cert,Amazon,2023-01-01,cloud,https://example.com
]] *)
Definition aws_file : file :=
  File [certifications_header;
        ["AWS Cert"; "Amazon"; "2023-01-01"; "cloud"; "https://example.com"]]
       false.

(** The same file with the [url] value of its row left out:
[[
title,issuer,date,category,url
AWS Cert,Amazon,2023-01-01,cloud
]] *)
Definition aws_short_file : file :=
  File [certifications_header;
        ["AWS Cert"; "Amazon"; "2023-01-01"; "cloud"]]
       false.

Definition projects_header : list string :=
  ["title"; "description"; "tech_stack"; "category"; "github_url";
   "demo_url"; "is_current"; "image_url"].

(** A projects file with a complete line and a line of empty values:
[[
title,description,tech_stack,category,github_url,demo_url,is_current,image_url
Portfolio,My site,"Python,Flask",web,https://github.com/Ad2m1109/portfolio,https://example.com,TRUE,/static/images/projects/portfolio.png
,,,,,,,
]] *)
Definition projects_file : file :=
  File [projects_header;
        ["Portfolio"; "My site"; "Python,Flask"; "web";
         "https://github.com/Ad2m1109/portfolio"; "https://example.com";
         "TRUE"; "/static/images/projects/portfolio.png"];
        [""; ""; ""; ""; ""; ""; ""; ""]]
       false.

(** The same file when the read fails after its two lines. *)
Definition projects_failing_file : file := File (records projects_file) true.

Definition portfolio_project : Project.t :=
  {| Project.title := VStr "Portfolio";
     Project.description := VStr "My site";
     Project.tech_stack := ["Python"; "Flask"];
     Project.category := VStr "web";
     Project.github_url := VStr "https://github.com/Ad2m1109/portfolio";
     Project.demo_url := VStr "https://example.com";
     Project.is_current := true;
     Project.image_url := VStr "/static/images/projects/portfolio.png" |}.

Definition default_project : Project.t :=
  {| Project.title := VStr "Untitled Project";
     Project.description := VStr "No description provided";
     Project.tech_stack := ["Unknown"];
     Project.category := VStr "other";
     Project.github_url := VStr "#";
     Project.demo_url := VStr "#";
     Project.is_current := false;
     Project.image_url := VStr "/static/images/projects/default.png" |}.

Definition sample_projects : list Project.t :=
  [portfolio_project; default_project].

(** A projects file whose data line stops after the [demo_url] value:
[[
title,description,tech_stack,category,github_url,demo_url,is_current,image_url
Portfolio,My site,Python,web,https://github.com/Ad2m1109/portfolio,https://example.com
]] *)
Definition projects_short_file : file :=
  File [projects_header;
        ["Portfolio"; "My site"; "Python"; "web";
         "https://github.com/Ad2m1109/portfolio"; "https://example.com"]]
       false.

(** [[
title,date,description,url,image_url
Hello,2024-05-01,First post,https://example.com/hello,/static/images/hello.png
]] *)
Definition blog_file : file :=
  File [["title"; "date"; "description"; "url"; "image_url"];
        ["Hello"; "2024-05-01"; "First post"; "https://example.com/hello";
         "/static/images/hello.png"]]
       false.

(** The three files present and readable, the projects file with the short
    line. *)
Definition fs_short_project : filesystem :=
  {[ "data/blog_posts.csv" := blog_file;
     "data/projects.csv" := projects_short_file;
     "data/certifications.csv" := aws_file ]}.

Definition fs_of (path : string) (f : file) : filesystem := {[ path := f ]}.

(** ** Vocabulary of the specification *)

(** The header defines every required column. *)
Definition header_defines (expected_fields header : list string) : bool :=
  forallb (λ k, bool_decide (k ∈ header)) expected_fields.

(** A well-formed source: the read does not fail, the first record is a
    header that defines the required columns, and every line after it is a
    data line with one value for each column of the header. *)
Definition well_formed (expected_fields : list string) (f : file) : bool :=
  negb (failure f) &&
  match records f with
  | [] => false
  | header :: lines =>
      header_defines expected_fields header
      && forallb (λ line, negb (blank line)
                          && (length line =? length header)%nat) lines
  end.

(** The data lines of a source: its records after the header. *)
Definition data_lines (f : file) : list (list string) := tail (records f).

Definition header_of (f : file) : list string := default [] (head (records f)).

(** The rows that pass, and the warnings for the rows that fail, the test of
    the loop of [_load_from_csv]. *)
Definition kept (expected_fields : list string) (rows : list dict) : list dict :=
  filter (λ row, has_fields expected_fields row = true) rows.

Definition skipped (file_path : string) (expected_fields : list string)
    (rows : list dict) : list diagnostic :=
  map (λ row, warning (SkippingInvalidRow file_path row))
      (filter (λ row, has_fields expected_fields row = false) rows).

(** A row carries the fields of a data line of the file at [file_path] as
    they were parsed: it is the row [DictReader] makes of the line, and,
    when no column name occurs twice in the header, its value under a
    column is the field of the line at the position of the column. *)
Definition verbatim_from (fs : filesystem) (file_path : string) (row : dict)
    : Prop :=
  ∃ f line,
    fs !! file_path = Some f
    ∧ line ∈ data_lines f
    ∧ row = DictReader_row (header_of f) line
    ∧ (NoDup (header_of f) →
       ∀ j k v, header_of f !! j = Some k → line !! j = Some v →
                row !! Some k = Some (VStr v)).

(** A technology name without an embedded comma. *)
Fixpoint no_comma (s : string) : bool :=
  match s with
  | EmptyString => true
  | String c s' => negb (Ascii.eqb c comma) && no_comma s'
  end.

(** Equality of two strings up to the case of their letters: the same
    length and, at each position, letters with the same lower case. *)
Fixpoint equal_ignoring_case (s t : string) : bool :=
  match s, t with
  | EmptyString, EmptyString => true
  | String a s', String b t' =>
      Ascii.eqb (lower_char a) (lower_char b) && equal_ignoring_case s' t'
  | _, _ => false
  end.

(** The sixteen ways of writing the word true in upper and lower case. *)
Definition true_spellings : list string :=
  ["true"; "truE"; "trUe"; "trUE"; "tRue"; "tRuE"; "tRUe"; "tRUE";
   "True"; "TruE"; "TrUe"; "TrUE"; "TRue"; "TRuE"; "TRUe"; "TRUE"].

(** What [load_projects] makes of the raw [tech_stack] value. *)
Definition tech_stack_of (raw : pyval) : result (list string) :=
  if truthy raw then
    match raw with
    | VStr s => Ok (split comma s)
    | _ => Raise AttributeError
    end
  else Ok ["Unknown"].

(** [raw or fallback] on a parsed field. *)
Definition defaulted (raw fallback : string) : pyval :=
  VStr (if bool_decide (raw = "") then fallback else raw).

(** ** Vocabulary of the further properties *)


(** A value that a column of a row can hold: a parsed field or [None]. *)
Definition field_value (v : pyval) : bool :=
  match v with
  | VStr _ | VNone => true
  | VList _ => false
  end.

Definition is_string (v : pyval) : bool :=
  match v with
  | VStr _ => true
  | _ => false
  end.

(** The rows [DictReader] makes of the lines of a file that are not blank. *)
Definition rows_of (f : file) : list dict :=
  map (DictReader_row (header_of f))
      (filter (λ r, blank r = false) (data_lines f)).

(** A loader passes the rows of its file through: whenever the file at
    [file_path] is read to its end and its header has the required columns,
    the loader logs nothing and returns the rows of the lines that are not
    blank, all of them, in their order and as [DictReader] made them; so
    that, when no column name occurs twice in the header, the row at each
    position holds under every column the field of the line at that position,
    as it was parsed. *)
Definition passes_through (load : filesystem → M (list dict))
    (file_path : string) (expected_fields : list string) : Prop :=
  ∀ (fs : filesystem) f,
    fs !! file_path = Some f →
    failure f = false →
    header_defines expected_fields (header_of f) = true →
    load fs = ([], Ok (rows_of f))
    ∧ ∀ i line j k v,
        filter (λ r, blank r = false) (data_lines f) !! i = Some line →
        NoDup (header_of f) →
        header_of f !! j = Some k → line !! j = Some v →
        ∃ row, rows_of f !! i = Some row ∧ row !! Some k = Some (VStr v).

(** A certifications file whose line has a sixth value:
[[
title,issuer,date,category,url
AWS Cert,Amazon,2023-01-01,cloud,https://example.com,surplus
]] *)
Definition surplus_certifications_file : file :=
  File [certifications_header;
        ["AWS Cert"; "Amazon"; "2023-01-01"; "cloud"; "https://example.com";
         "surplus"]]
       false.

(** A certifications file with two lines:
[[
title,issuer,date,category,url
AWS Cert,Amazon,2023-01-01,cloud,https://example.com
Rocq,Inria,2024-06-30,proofs,
]] *)
Definition two_certifications_file : file :=
  File [certifications_header;
        ["AWS Cert"; "Amazon"; "2023-01-01"; "cloud"; "https://example.com"];
        ["Rocq"; "Inria"; "2024-06-30"; "proofs"; ""]]
       false.

(** The [is_current] value of a row is a string. *)
Definition current_is_string (row : dict) : bool :=
  match row !! Some "is_current" with
  | Some (VStr _) => true
  | _ => false
  end.

(** ** Responses: [security_headers] *)

(** The headers of a response, [werkzeug.datastructures.Headers]: a list of
    pairs of a name and a value, whose names compare without regard to
    case. *)
Abbreviation header_list := (list (string * string)).

Definition same_header (a b : string) : bool :=
  bool_decide (lower a = lower b).

(** [headers[key] = value], that is [Headers.set]: the first entry of that
    name is replaced where it stands and the later entries of that name are
    removed; when there is none the pair is appended. *)
Fixpoint headers_set (key value : string) (l : header_list) : header_list :=
  match l with
  | [] => [(key, value)]
  | (k, v) :: rest =>
      if same_header k key
      then (key, value) :: filter (λ kv, same_header kv.1 key = false) rest
      else (k, v) :: headers_set key value rest
  end.

(** [headers.get(key)]: the value of the first entry of that name. *)
Fixpoint headers_get (key : string) (l : header_list) : option string :=
  match l with
  | [] => None
  | (k, v) :: rest => if same_header k key then Some v else headers_get key rest
  end.

(** [headers.getlist(key)]: the values of the entries of that name. *)
Definition headers_getlist (key : string) (l : header_list) : list string :=
  map snd (filter (λ kv, same_header kv.1 key = true) l).

Module Http.
(** A response: its status code, its headers and its body, whose form the
    functions below do not look at. *)
Record response (A : Type) : Type :=
  Response { status : nat; headers : header_list; body : A }.
Arguments Response {A} status headers body.
Arguments status {A} r.
Arguments headers {A} r.
Arguments body {A} r.
End Http.

(** [response.headers[key] = value]. *)
Definition set_header {A} (key value : string) (response : Http.response A)
    : Http.response A :=
  Http.Response (Http.status response)
    (headers_set key value (Http.headers response))
    (Http.body response).

(** The [after_request] function [security_headers]. *)
Definition security_headers {A} (response : Http.response A)
    : Http.response A :=
  let response := set_header "X-Content-Type-Options" "nosniff" response in
  let response := set_header "X-Frame-Options" "DENY" response in
  let response := set_header "X-XSS-Protection" "1; mode=block" response in
  let response :=
    set_header "Referrer-Policy" "strict-origin-when-cross-origin" response in
  response.

(** The four headers [security_headers] sets, with their values. *)
Definition security_table : header_list :=
  [("X-Content-Type-Options", "nosniff");
   ("X-Frame-Options", "DENY");
   ("X-XSS-Protection", "1; mode=block");
   ("Referrer-Policy", "strict-origin-when-cross-origin")].

(** A header name that is one of the four, in any case. *)
Definition security_name (name : string) : bool :=
  existsb (λ kv, same_header name kv.1) security_table.

(** A response that comes with two entries for [X-Frame-Options], in two
    spellings, and with a content type. *)
Definition framed_response : Http.response unit :=
  Http.Response 200
    [("x-frame-options", "SAMEORIGIN");
     ("Content-Type", "application/json");
     ("X-Frame-Options", "ALLOW-FROM https://example.com")]
    tt.

(** ** The JSON routes *)

(** What a view returns: a status code and the value handed to [jsonify].
    The headers [jsonify] gives its response are not part of the model. *)
Record reply (A : Type) : Type := Reply { code : nat; json : A }.
Arguments Reply {A} code json.
Arguments code {A} r.
Arguments json {A} r.

#[global] Instance pyval_eq : EqDecision pyval.
Proof. solve_decision. Defined.

(** [jsonify] dumps its argument with [sort_keys=True]: the items of every
    dict in it are sorted by key, and the sorting raises [TypeError] when
    the key [None] stands beside a string key. [dumps_ok x] tells whether
    the dump of [x] goes through. *)
Class Dumps (A : Type) : Type := dumps_ok : A → bool.

(** A row: its keys can be sorted when [None] is not one of them, or is the
    only one. *)
Definition sortable (row : dict) : bool :=
  bool_decide (row !! None = None) || bool_decide (delete None row = ∅).

#[global] Instance dumps_row : Dumps dict := sortable.

#[global] Instance dumps_list {A} `{Dumps A} : Dumps (list A) :=
  forallb dumps_ok.

(** The dicts with fixed string keys. *)
#[global] Instance dumps_project : Dumps Project.t := λ _, true.
#[global] Instance dumps_stats : Dumps Portfolio.stats_t := λ _, true.

(** [jsonify(x)], returned as it is: status 200; nothing when the dump
    raises [TypeError]. *)
Definition jsonify {A} `{Dumps A} (x : A) : option (reply A) :=
  if dumps_ok x then Some (Reply 200 x) else None.

(** [return response, status]. *)
Definition with_status {A} (r : reply A) (status : nat) : reply A :=
  Reply status (json r).

(** The exceptions that leave a route: the one that left
    [get_portfolio_data], or the [TypeError] of [jsonify]. *)
Inductive route_exn : Type :=
  | Propagated (e : exn)
  | TypeError.

(** [jsonify(PortfolioData.get_portfolio_data()[key])]. *)
Definition jsonify_part {B} `{Dumps B} (data : M Portfolio.t)
    (part : Portfolio.t → B) : list diagnostic * (route_exn + reply B) :=
  match data with
  | (l, Raise e) => (l, inl (Propagated e))
  | (l, Ok d) =>
      (l, match jsonify (part d) with
          | Some response => inr response
          | None => inl TypeError
          end)
  end.

Definition api_projects (fs : filesystem)
    : list diagnostic * (route_exn + reply (list Project.t)) :=
  jsonify_part (get_portfolio_data fs) Portfolio.projects.

Definition api_certifications (fs : filesystem)
    : list diagnostic * (route_exn + reply (list dict)) :=
  jsonify_part (get_portfolio_data fs) Portfolio.certifications.

Definition api_blog_posts (fs : filesystem)
    : list diagnostic * (route_exn + reply (list dict)) :=
  jsonify_part (get_portfolio_data fs) Portfolio.blog_posts.

Definition api_stats (fs : filesystem)
    : list diagnostic * (route_exn + reply Portfolio.stats_t) :=
  jsonify_part (get_portfolio_data fs) Portfolio.stats.

(** ** The contact route *)

(** [str.isspace] on one code point below 256: the controls U+0009-U+000D
    and U+001C-U+001F, the space, U+0085 and the no-break space. *)
Definition is_space (c : ascii) : bool :=
  let n := nat_of_ascii c in
  ((9 <=? n) && (n <=? 13) || (28 <=? n) && (n <=? 32)
   || (n =? 133) || (n =? 160))%nat.

(** [str.lstrip()], [str.rstrip()] and [str.strip()]. *)
Fixpoint lstrip (s : string) : string :=
  match s with
  | EmptyString => EmptyString
  | String c s' => if is_space c then lstrip s' else s
  end.

Fixpoint rstrip (s : string) : string :=
  match s with
  | EmptyString => EmptyString
  | String c s' =>
      match rstrip s' with
      | EmptyString => if is_space c then EmptyString else String c EmptyString
      | r => String c r
      end
  end.

Definition strip (s : string) : string := rstrip (lstrip s).

(** The string has a character that is not white space. *)
Fixpoint has_visible (s : string) : bool :=
  match s with
  | EmptyString => false
  | String c s' => negb (is_space c) || has_visible s'
  end.

Set Warnings "-register-all".
(** A value parsed from a JSON text. *)
Inductive json_value : Type :=
  | JNull
  | JBool (b : bool)
  | JNumber (literal : string)
  | JString (s : string)
  | JArray (items : list json_value)
  | JObject (members : gmap string json_value).
Set Warnings "+register-all".

Module Contact.
(** The request, as [request.get_json()] sees it: a body that parses as
    JSON, or one for which the call raises. *)
Inductive request : Type :=
  | Json (data : json_value)
  | NotJson.

(** The exceptions of the route: the one [get_json] raises, the
    [AttributeError] of a value that lacks the method called on it, and the
    [TypeError] of a dump that fails. *)
Inductive error : Type :=
  | BadRequest
  | NoAttribute (method : string)
  | TypeError.

(** The two messages the route logs, with [logging.info] and with
    [logging.error]. *)
Inductive entry : Type :=
  | Submission (name email message : string)
  | Failure (e : error).

(** The JSON object of the answer. *)
Record answer : Type := Answer { success : bool; message : string }.
End Contact.

(** The answer is a dict with the string keys [success] and [message]. *)
#[global] Instance dumps_answer : Dumps Contact.answer := λ _, true.

(** [return jsonify(x)] and [return jsonify(x), status] inside the route. *)
Definition jsonify_answer (x : Contact.answer)
    : Contact.error + reply Contact.answer :=
  match jsonify x with
  | Some response => inr response
  | None => inl Contact.TypeError
  end.

Definition jsonify_status (x : Contact.answer) (status : nat)
    : Contact.error + reply Contact.answer :=
  match jsonify_answer x with
  | inr response => inr (with_status response status)
  | inl e => inl e
  end.

Definition get_json (r : Contact.request) : Contact.error + json_value :=
  match r with
  | Contact.Json data => inr data
  | Contact.NotJson => inl Contact.BadRequest
  end.

(** [data.get(key, default)]: only a dict has the method here. *)
Definition get_method (data : json_value) (key : string)
    (default : json_value) : Contact.error + json_value :=
  match data with
  | JObject members => inr (match members !! key with
                            | Some v => v
                            | None => default
                            end)
  | _ => inl (Contact.NoAttribute "get")
  end.

(** [v.strip()]: only a string has the method. *)
Definition strip_method (v : json_value) : Contact.error + string :=
  match v with
  | JString s => inr (strip s)
  | _ => inl (Contact.NoAttribute "strip")
  end.

(** [data.get(key, '').strip()]. *)
Definition form_field (data : json_value) (key : string)
    : Contact.error + string :=
  match get_method data key (JString "") with
  | inl e => inl e
  | inr v => strip_method v
  end.

(** The body of the [try] block of [contact]. *)
Definition contact_try (r : Contact.request)
    : list Contact.entry * (Contact.error + reply Contact.answer) :=
  match get_json r with
  | inl e => ([], inl e)
  | inr data =>
      match form_field data "name" with
      | inl e => ([], inl e)
      | inr name =>
          match form_field data "email" with
          | inl e => ([], inl e)
          | inr email =>
              match form_field data "message" with
              | inl e => ([], inl e)
              | inr message =>
                  if negb (forallb (λ s, negb (bool_decide (s = "")))
                             [name; email; message])
                  then ([], jsonify_status
                              (Contact.Answer false "All fields are required")
                              400)
                  else ([Contact.Submission name email message],
                        jsonify_answer
                          (Contact.Answer true "Message sent successfully!"))
              end
          end
      end
  end.

(** [contact]: the [try] block and its [except Exception] clause. *)
Definition contact (r : Contact.request)
    : list Contact.entry * (Contact.error + reply Contact.answer) :=
  match contact_try r with
  | (l, inr response) => (l, inr response)
  | (l, inl e) =>
      (l ++ [Contact.Failure e],
       jsonify_status (Contact.Answer false "An error occurred") 500)
  end.

(** The text of a field of the form: the empty string when the key is
    absent, nothing when the value is not a string. *)
Definition text_of (members : gmap string json_value) (key : string)
    : option string :=
  match members !! key with
  | None => Some ""
  | Some (JString s) => Some s
  | Some _ => None
  end.

(** The three answers of the route. *)
Definition sent : reply Contact.answer :=
  Reply 200 (Contact.Answer true "Message sent successfully!").

Definition required : reply Contact.answer :=
  Reply 400 (Contact.Answer false "All fields are required").

Definition failed : reply Contact.answer :=
  Reply 500 (Contact.Answer false "An error occurred").

(** A form whose three fields are strings with a visible character. *)
Definition filled_form : Contact.request :=
  Contact.Json (JObject {[ "name" := JString "  Ada ";
                           "email" := JString "ada@example.com";
                           "message" := JString "Hello" ]}).

(** A form without the [email] key. *)
Definition partial_form : Contact.request :=
  Contact.Json (JObject {[ "name" := JString "Ada";
                           "message" := JString "Hello" ]}).

(** ** [create_app]: the configuration *)

Module Config.
(** The keys [create_app] passes to [app.config.update]. The session
    lifetime, [timedelta(hours=1)], is counted in seconds. *)
Record t : Type := Make {
  SECRET_KEY : string;
  WTF_CSRF_ENABLED : bool;
  SESSION_COOKIE_SECURE : bool;
  SESSION_COOKIE_HTTPONLY : bool;
  PERMANENT_SESSION_LIFETIME : Z;
  CACHE_TYPE : string;
  CACHE_DEFAULT_TIMEOUT : Z;
  MAIL_SERVER : string;
  MAIL_PORT : Z;
  MAIL_USE_TLS : bool;
  MAIL_USERNAME : option string;
  MAIL_PASSWORD : option string;
  MAIL_DEFAULT_SENDER : option string
}.
End Config.

(** The environment of the process, [os.environ], once [load_dotenv] has
    run. *)
Abbreviation environ := (gmap string string).

(** [os.getenv(key, default)], [os.environ.get(key, default)]. *)
Definition getenv (env : environ) (key default : string) : string :=
  match env !! key with
  | Some v => v
  | None => default
  end.

(** [os.environ.get(key) or default], for a string default. *)
Definition environ_or (env : environ) (key default : string) : string :=
  match env !! key with
  | Some v => if bool_decide (v = "") then default else v
  | None => default
  end.

Section create_app.
(** [int(s)] on a string is left open: the integer, or nothing when [int]
    raises [ValueError]. *)
Variable py_int : string → option Z.

(** [int(os.environ.get('MAIL_PORT') or 587)]. *)
Definition mail_port (env : environ) : option Z :=
  match env !! "MAIL_PORT" with
  | Some v => if bool_decide (v = "") then Some 587%Z else py_int v
  | None => Some 587%Z
  end.

(** [os.environ.get('MAIL_USE_TLS', 'true').lower() in ['true', 'on', '1']]. *)
Definition mail_use_tls (env : environ) : bool :=
  bool_decide (lower (getenv env "MAIL_USE_TLS" "true") ∈ ["true"; "on"; "1"]).

(** The arguments of [app.config.update] in [create_app]; nothing when
    [int] raises. *)
Definition app_config (env : environ) : option Config.t :=
  match mail_port env with
  | None => None
  | Some port =>
      Some {| Config.SECRET_KEY :=
                getenv env "SECRET_KEY" "dev-key-change-in-production";
              Config.WTF_CSRF_ENABLED := true;
              Config.SESSION_COOKIE_SECURE :=
                bool_decide (env !! "ENV" = Some "production");
              Config.SESSION_COOKIE_HTTPONLY := true;
              Config.PERMANENT_SESSION_LIFETIME := 3600%Z;
              Config.CACHE_TYPE := "simple";
              Config.CACHE_DEFAULT_TIMEOUT := 300%Z;
              Config.MAIL_SERVER := environ_or env "MAIL_SERVER" "smtp.gmail.com";
              Config.MAIL_PORT := port;
              Config.MAIL_USE_TLS := mail_use_tls env;
              Config.MAIL_USERNAME := env !! "MAIL_USERNAME";
              Config.MAIL_PASSWORD := env !! "MAIL_PASSWORD";
              Config.MAIL_DEFAULT_SENDER := env !! "MAIL_DEFAULT_SENDER" |}
  end.
End create_app.

(** An [int] that reads nothing, for the environments in which [int] is
    not called on a string. *)
Definition no_int (s : string) : option Z := None.

(** The configuration of the empty environment. *)
Definition default_config : Config.t :=
  {| Config.SECRET_KEY := "dev-key-change-in-production";
     Config.WTF_CSRF_ENABLED := true;
     Config.SESSION_COOKIE_SECURE := false;
     Config.SESSION_COOKIE_HTTPONLY := true;
     Config.PERMANENT_SESSION_LIFETIME := 3600%Z;
     Config.CACHE_TYPE := "simple";
     Config.CACHE_DEFAULT_TIMEOUT := 300%Z;
     Config.MAIL_SERVER := "smtp.gmail.com";
     Config.MAIL_PORT := 587%Z;
     Config.MAIL_USE_TLS := true;
     Config.MAIL_USERNAME := None;
     Config.MAIL_PASSWORD := None;
     Config.MAIL_DEFAULT_SENDER := None |}.

(** A projects file whose data line has a ninth value:
[[
title,description,tech_stack,category,github_url,demo_url,is_current,image_url
Portfolio,My site,Python,web,#,#,true,/static/images/p.png,surplus
]] *)
Definition long_project_line : list string :=
  ["Portfolio"; "My site"; "Python"; "web"; "#"; "#"; "true";
   "/static/images/p.png"; "surplus"].

(** * Properties *)

(** ** The rows of [csv.DictReader] *)

Section dict_reader.
Implicit Types (d : dict) (fieldnames row keys : list string) (k : string).

Lemma zip_fold_is_Some d fieldnames row k :
  is_Some (foldl (λ d kv, <[Some kv.1 := VStr kv.2]> d) d
             (zip fieldnames row) !! Some k)
  ↔ is_Some (d !! Some k) ∨ k ∈ take (length row) fieldnames.
Proof.
  revert d row. induction fieldnames as [|f fieldnames IH]; intros d row.
  - rewrite take_nil. simpl.
    split; [by left | by intros [?|?%elem_of_nil]].
  - destruct row as [|v row]; simpl.
    + split; [by left | by intros [?|?%elem_of_nil]].
    + rewrite IH, lookup_insert_is_Some, elem_of_cons.
      destruct (decide (f = k)) as [->|Hne].
      * split; [intros _; right; by left | intros _; left; by left].
      * split.
        -- intros [[?|[_ ?]]|?]; [congruence | by left | right; by right].
        -- intros [?|[?|?]]; [| congruence |].
           ++ left. right. split; [congruence | done].
           ++ by right.
Qed.

Lemma fill_fold_is_Some d keys k :
  is_Some (foldl (λ d key, <[Some key := VNone]> d) d keys !! Some k)
  ↔ is_Some (d !! Some k) ∨ k ∈ keys.
Proof.
  revert d. induction keys as [|f keys IH]; intros d; simpl.
  - split; [by left | by intros [?|?%elem_of_nil]].
  - rewrite IH, lookup_insert_is_Some, elem_of_cons.
    destruct (decide (f = k)) as [->|Hne].
    + split; [intros _; right; by left | intros _; left; by left].
    + split.
      * intros [[?|[_ ?]]|?]; [congruence | by left | right; by right].
      * intros [?|[?|?]]; [| congruence |].
        -- left. right. split; [congruence | done].
        -- by right.
Qed.

(** A row of [DictReader] has every column of the header as a key, however
    many fields the line has. *)
Lemma DictReader_row_is_Some fieldnames row k :
  is_Some (DictReader_row fieldnames row !! Some k) ↔ k ∈ fieldnames.
Proof.
  unfold DictReader_row, dict_zip.
  destruct (Nat.ltb_spec (length fieldnames) (length row)) as [Hlt|Hge].
  - rewrite lookup_insert_ne by done.
    rewrite zip_fold_is_Some, lookup_empty, take_ge by lia.
    split; [intros [[? [=]]|?]; done | by right].
  - destruct (Nat.ltb_spec (length row) (length fieldnames)) as [Hlt|Hge'].
    + rewrite fill_fold_is_Some, zip_fold_is_Some, lookup_empty.
      rewrite <- (take_drop (length row) fieldnames) at 3.
      rewrite elem_of_app.
      split; [intros [[[? [=]]|?]|?]; tauto | intros [?|?]; tauto].
    + rewrite zip_fold_is_Some, lookup_empty, take_ge by lia.
      split; [intros [[? [=]]|?]; done | by right].
Qed.

Lemma zip_fold_notin d fieldnames row k :
  k ∉ fieldnames →
  foldl (λ d kv, <[Some kv.1 := VStr kv.2]> d) d (zip fieldnames row)
    !! Some k = d !! Some k.
Proof.
  revert d row. induction fieldnames as [|f fieldnames IH];
    intros d row Hk; [done|].
  destruct row as [|v row]; [done|]. simpl.
  apply not_elem_of_cons in Hk as [Hne Hk].
  rewrite IH by done. apply lookup_insert_ne. congruence.
Qed.

Lemma fill_fold_notin d keys k :
  k ∉ keys →
  foldl (λ d key, <[Some key := VNone]> d) d keys !! Some k = d !! Some k.
Proof.
  revert d. induction keys as [|f keys IH]; intros d Hk; [done|]. simpl.
  apply not_elem_of_cons in Hk as [Hne Hk].
  rewrite IH by done. apply lookup_insert_ne. congruence.
Qed.

Lemma zip_fold_lookup d fieldnames row j k v :
  NoDup fieldnames →
  fieldnames !! j = Some k → row !! j = Some v →
  foldl (λ d kv, <[Some kv.1 := VStr kv.2]> d) d (zip fieldnames row)
    !! Some k = Some (VStr v).
Proof.
  revert d row j.
  induction fieldnames as [|f fieldnames IH]; intros d row j Hnd Hf Hr;
    [done|].
  destruct row as [|w row]; [done|].
  apply NoDup_cons in Hnd as [Hf' Hnd].
  destruct j as [|j]; simpl in *.
  - injection Hf as ->. injection Hr as ->.
    rewrite zip_fold_notin by done. apply lookup_insert_eq.
  - by apply (IH _ _ j).
Qed.

(** The value of a column that the line reaches is the field of the line
    at the position of the column, as parsed. *)
Lemma DictReader_row_lookup fieldnames row j k v :
  NoDup fieldnames →
  fieldnames !! j = Some k → row !! j = Some v →
  DictReader_row fieldnames row !! Some k = Some (VStr v).
Proof.
  intros Hnd Hf Hr. unfold DictReader_row, dict_zip.
  destruct (length fieldnames <? length row)%nat.
  - rewrite lookup_insert_ne by done. by eapply zip_fold_lookup.
  - destruct (length row <? length fieldnames)%nat.
    + rewrite fill_fold_notin; [by eapply zip_fold_lookup|].
      intros Hin. apply list_elem_of_lookup in Hin as [i Hi].
      rewrite lookup_drop in Hi.
      assert (j = length row + i) as ->
        by (eapply NoDup_lookup; eauto).
      apply lookup_lt_Some in Hr. lia.
    + by eapply zip_fold_lookup.
Qed.

(** A column that the line does not reach holds [None]. *)
Lemma DictReader_row_short fieldnames row j k :
  NoDup fieldnames →
  fieldnames !! j = Some k → (length row ≤ j)%nat →
  DictReader_row fieldnames row !! Some k = Some VNone.
Proof.
  intros Hnd Hf Hj. unfold DictReader_row, dict_zip.
  pose proof (lookup_lt_Some _ _ _ Hf) as Hlt.
  destruct (Nat.ltb_spec (length fieldnames) (length row)); [lia|].
  destruct (Nat.ltb_spec (length row) (length fieldnames)); [|lia].
  assert (drop (length row) fieldnames !! (j - length row) = Some k) as Hd.
  { rewrite lookup_drop. rewrite <- Hf. f_equal. lia. }
  assert (NoDup (drop (length row) fieldnames)) as Hnd'.
  { rewrite <- (take_drop (length row) fieldnames) in Hnd.
    by apply NoDup_app in Hnd as (_ & _ & ?). }
  clear Hf Hj Hlt Hnd H H0.
  generalize dependent (j - length row).
  generalize (foldl (λ d kv, <[Some kv.1 := VStr kv.2]> d) (∅ : dict)
                (zip fieldnames row)).
  induction (drop (length row) fieldnames) as [|f keys IH];
    intros d i Hi; [done|].
  apply NoDup_cons in Hnd' as [Hf Hnd'].
  destruct i as [|i]; simpl in *.
  - injection Hi as ->. rewrite fill_fold_notin by done.
    apply lookup_insert_eq.
  - by apply (IH Hnd' _ i).
Qed.
End dict_reader.

(** ** [_load_from_csv] *)

Section load_from_csv.
Variables (file_path : string) (expected_fields : list string).

Lemma for_each_load_row rows acc :
  for_each (load_row file_path expected_fields) rows acc
  = (skipped file_path expected_fields rows,
     Ok (acc ++ kept expected_fields rows)).
Proof.
  revert acc. induction rows as [|row rows IH]; intros acc.
  - unfold skipped, kept. simpl. by rewrite app_nil_r.
  - simpl. unfold load_row at 1, skipped, kept.
    rewrite !filter_cons.
    destruct (has_fields expected_fields row) eqn:Hrow; simpl.
    + rewrite IH. unfold skipped, kept. by rewrite <- app_assoc.
    + rewrite IH. by unfold skipped, kept.
Qed.

(** The three outcomes of [_load_from_csv]. *)
Lemma _load_from_csv_missing (fs : filesystem) :
  fs !! file_path = None →
  _load_from_csv fs file_path expected_fields
  = ([warning (NotFound file_path)], Ok []).
Proof. intros Hfs. unfold _load_from_csv. by rewrite Hfs. Qed.

Lemma _load_from_csv_read (fs : filesystem) f :
  fs !! file_path = Some f → failure f = false →
  _load_from_csv fs file_path expected_fields
  = (skipped file_path expected_fields (DictReader (records f)),
     Ok (kept expected_fields (DictReader (records f)))).
Proof.
  intros Hfs Hfail. unfold _load_from_csv, read_rows.
  rewrite Hfs, for_each_load_row, Hfail. simpl.
  by rewrite app_nil_r.
Qed.

Lemma _load_from_csv_failed (fs : filesystem) f :
  fs !! file_path = Some f → failure f = true →
  _load_from_csv fs file_path expected_fields
  = (skipped file_path expected_fields (DictReader (records f))
       ++ [error (ErrorReading file_path ReadError)],
     Ok []).
Proof.
  intros Hfs Hfail. unfold _load_from_csv, read_rows.
  rewrite Hfs, for_each_load_row, Hfail. simpl.
  by rewrite app_nil_r.
Qed.

(** [_load_from_csv] returns whatever the state of the file. *)
Lemma _load_from_csv_returns (fs : filesystem) :
  returns (_load_from_csv fs file_path expected_fields).
Proof.
  destruct (fs !! file_path) as [f|] eqn:Hfs.
  - destruct (failure f) eqn:Hfail.
    + rewrite (_load_from_csv_failed _ f) by done. by eexists.
    + rewrite (_load_from_csv_read _ f) by done. by eexists.
  - rewrite _load_from_csv_missing by done. by eexists.
Qed.

(** The test of the loop looks at the header only: [DictReader] gives
    every row all the columns of the header. *)
Lemma has_fields_DictReader_row header line :
  has_fields expected_fields (DictReader_row header line)
  = header_defines expected_fields header.
Proof.
  unfold has_fields, header_defines.
  induction expected_fields as [|k ks IH]; [done|]. simpl.
  rewrite IH. f_equal. unfold contains.
  apply bool_decide_ext, DictReader_row_is_Some.
Qed.

Lemma kept_DictReader header lines :
  kept expected_fields (DictReader (header :: lines))
  = if header_defines expected_fields header
    then DictReader (header :: lines) else [].
Proof.
  unfold kept, DictReader.
  induction (filter (λ r, blank r = false) lines) as [|line ls IH];
    simpl.
  - by destruct (header_defines _ _).
  - rewrite filter_cons, has_fields_DictReader_row, IH.
    destruct (header_defines _ _); by simpl.
Qed.

Lemma skipped_DictReader header lines :
  skipped file_path expected_fields (DictReader (header :: lines))
  = if header_defines expected_fields header then []
    else map (λ row, warning (SkippingInvalidRow file_path row))
           (DictReader (header :: lines)).
Proof.
  unfold skipped, DictReader.
  induction (filter (λ r, blank r = false) lines) as [|line ls IH];
    simpl.
  - by destruct (header_defines _ _).
  - rewrite filter_cons, has_fields_DictReader_row.
    destruct (header_defines _ _) eqn:Hh; simpl in *.
    + by rewrite IH.
    + by rewrite IH.
Qed.

(** When the header defines the required columns no row is skipped,
    whatever the number of its fields: the result has a row for every
    line that is not blank, and nothing is logged. *)
Lemma complete_header_keeps_every_row (fs : filesystem) f header lines :
  fs !! file_path = Some f → failure f = false →
  records f = header :: lines →
  header_defines expected_fields header = true →
  _load_from_csv fs file_path expected_fields
  = ([], Ok (map (DictReader_row header)
               (filter (λ r, blank r = false) lines))).
Proof.
  intros Hfs Hfail Hrec Hhead.
  rewrite (_load_from_csv_read _ f), Hrec by done.
  by rewrite kept_DictReader, skipped_DictReader, Hhead.
Qed.

(** When the header lacks a required column every row is skipped, each
    with a warning. *)
Lemma incomplete_header_skips_every_row (fs : filesystem) f header lines :
  fs !! file_path = Some f → failure f = false →
  records f = header :: lines →
  header_defines expected_fields header = false →
  _load_from_csv fs file_path expected_fields
  = (map (λ row, warning (SkippingInvalidRow file_path row))
       (map (DictReader_row header) (filter (λ r, blank r = false) lines)),
     Ok []).
Proof.
  intros Hfs Hfail Hrec Hhead.
  rewrite (_load_from_csv_read _ f), Hrec by done.
  by rewrite kept_DictReader, skipped_DictReader, Hhead.
Qed.
End load_from_csv.

Lemma load_projects_no_rows (fs : filesystem) l :
  _load_from_csv fs "data/projects.csv" projects_fields = (l, Ok []) →
  load_projects fs = (l, Ok []).
Proof.
  intros Hload. unfold load_projects. simpl.
  change (os_path_join "data" "projects.csv") with "data/projects.csv".
  rewrite Hload. simpl. by rewrite app_nil_r.
Qed.

(** ** Claims about the loader *)

(** C1, at the input on which the code departs from it. The header of the
    certifications file defines the five required columns and its only data
    line has four values, one fewer than the header. The line is not
    skipped: [load_certifications] logs nothing and returns the row, with
    [None] under [url]. *)
Theorem short_row_is_loaded :
  let line := ["AWS Cert"; "Amazon"; "2023-01-01"; "cloud"] in
  let row := DictReader_row certifications_header line in
  header_defines certifications_fields certifications_header = true
  ∧ length line + 1 = length certifications_header
  ∧ load_certifications (fs_of "data/certifications.csv" aws_short_file)
    = ([], Ok [row])
  ∧ row !! Some "url" = Some VNone
  ∧ row !! Some "title" = Some (VStr "AWS Cert").
Proof. vm_compute. by repeat split. Qed.

(** C3: for a well-formed source, [_load_from_csv] logs nothing and returns
    one row for each data line, in the order of the lines: as many rows as
    data lines, the row at each position being the one [DictReader] makes of
    the line at that position. *)
Theorem well_formed_source_rows (fs : filesystem) file_path expected_fields f :
  fs !! file_path = Some f →
  well_formed expected_fields f = true →
  ∃ rows,
    _load_from_csv fs file_path expected_fields = ([], Ok rows)
    ∧ length rows = length (data_lines f)
    ∧ ∀ i, rows !! i = DictReader_row (header_of f) <$> data_lines f !! i.
Proof.
  intros Hfs Hwf. unfold well_formed in Hwf.
  apply andb_true_iff in Hwf as [Hfail Hwf].
  apply negb_true_iff in Hfail.
  destruct (records f) as [|header lines] eqn:Hrec; [done|].
  apply andb_true_iff in Hwf as [Hhead Hlines].
  rewrite (_load_from_csv_read _ _ _ f), Hrec by done.
  rewrite kept_DictReader, skipped_DictReader, Hhead.
  unfold data_lines, header_of. rewrite Hrec. simpl.
  assert (filter (λ r, blank r = false) lines = lines) as ->.
  { clear Hrec. induction lines as [|line lines IH]; [done|].
    simpl in Hlines. apply andb_true_iff in Hlines as [Hline Hlines].
    apply andb_true_iff in Hline as [Hline _].
    apply negb_true_iff in Hline.
    rewrite filter_cons, decide_True by done. by rewrite IH. }
  eexists. split; [done|]. split.
  - by rewrite length_map.
  - intros i. by rewrite list_lookup_fmap.
Qed.

Lemma aws_file_rows :
  ∃ rows,
    _load_from_csv (fs_of "data/certifications.csv" aws_file)
      "data/certifications.csv" certifications_fields = ([], Ok rows)
    ∧ length rows = length (data_lines aws_file)
    ∧ ∀ i, rows !! i
           = DictReader_row (header_of aws_file) <$> data_lines aws_file !! i.
Proof.
  apply (well_formed_source_rows
           (fs_of "data/certifications.csv" aws_file)
           "data/certifications.csv" certifications_fields aws_file);
    reflexivity.
Defined.

(** C6: when the backing file does not exist, [_load_from_csv] returns the
    empty list, does not raise, and logs one diagnostic, at warning level;
    so does [load_projects], which works on the rows it returns. *)
Theorem missing_source_is_empty (fs : filesystem) file_path expected_fields :
  fs !! file_path = None →
  _load_from_csv fs file_path expected_fields
  = ([Diag WARNING (NotFound file_path)], Ok [])
  ∧ (file_path = "data/projects.csv" →
     load_projects fs = ([Diag WARNING (NotFound file_path)], Ok [])).
Proof.
  intros Hfs. split; [by apply _load_from_csv_missing|].
  intros ->. by apply load_projects_no_rows, _load_from_csv_missing.
Qed.

Lemma no_projects_file :
  _load_from_csv ∅ "data/projects.csv" projects_fields
  = ([Diag WARNING (NotFound "data/projects.csv")], Ok [])
  ∧ ("data/projects.csv" = "data/projects.csv" →
     load_projects ∅ = ([Diag WARNING (NotFound "data/projects.csv")], Ok [])).
Proof. apply (missing_source_is_empty ∅). reflexivity. Defined.

(** C7: when the file exists and the read fails, after any number of
    records, [_load_from_csv] returns the empty list and does not raise;
    the rows read before the failure are dropped; the last diagnostic is
    at error level, and the ones before it are the warnings of the rows
    that were skipped. [load_projects] then returns the empty list too. *)
Theorem unreadable_source_is_empty (fs : filesystem) file_path expected_fields f :
  fs !! file_path = Some f →
  failure f = true →
  ∃ warnings,
    _load_from_csv fs file_path expected_fields
    = (warnings ++ [Diag ERROR (ErrorReading file_path ReadError)], Ok [])
    ∧ Forall (λ d, diag_level d = WARNING) warnings
    ∧ (file_path = "data/projects.csv" →
       expected_fields = projects_fields →
       load_projects fs
       = (warnings ++ [Diag ERROR (ErrorReading file_path ReadError)],
          Ok [])).
Proof.
  intros Hfs Hfail. eexists. split; [|split].
  - by apply _load_from_csv_failed.
  - unfold skipped. apply Forall_forall. intros d Hd.
    apply list_elem_of_fmap in Hd as (row & -> & _). done.
  - intros -> ->. by apply load_projects_no_rows, _load_from_csv_failed.
Qed.

Lemma failing_projects_file_rows :
  ∃ warnings,
    _load_from_csv (fs_of "data/projects.csv" projects_failing_file)
      "data/projects.csv" projects_fields
    = (warnings ++ [Diag ERROR (ErrorReading "data/projects.csv" ReadError)],
       Ok [])
    ∧ Forall (λ d, diag_level d = WARNING) warnings
    ∧ ("data/projects.csv" = "data/projects.csv" →
       projects_fields = projects_fields →
       load_projects (fs_of "data/projects.csv" projects_failing_file)
       = (warnings
            ++ [Diag ERROR (ErrorReading "data/projects.csv" ReadError)],
          Ok [])).
Proof.
  apply (unreadable_source_is_empty
           (fs_of "data/projects.csv" projects_failing_file)
           "data/projects.csv" projects_fields projects_failing_file);
    reflexivity.
Defined.

Lemma _load_from_csv_verbatim (fs : filesystem) file_path expected_fields l rows row :
  _load_from_csv fs file_path expected_fields = (l, Ok rows) →
  row ∈ rows →
  verbatim_from fs file_path row.
Proof.
  intros Hload Hrow.
  destruct (fs !! file_path) as [f|] eqn:Hfs.
  - destruct (failure f) eqn:Hfail.
    + rewrite (_load_from_csv_failed _ _ _ f) in Hload by done.
      injection Hload as _ <-. by apply elem_of_nil in Hrow.
    + rewrite (_load_from_csv_read _ _ _ f) in Hload by done.
      injection Hload as _ <-.
      destruct (records f) as [|header lines] eqn:Hrec.
      { by apply elem_of_nil in Hrow. }
      rewrite kept_DictReader in Hrow.
      destruct (header_defines expected_fields header).
      * apply list_elem_of_fmap in Hrow as (line & -> & Hline).
        apply list_elem_of_filter in Hline as [_ Hline].
        exists f, line. unfold data_lines, header_of. rewrite Hrec. simpl.
        split; [done|]. split; [done|]. split; [done|].
        intros Hnd j k v Hk Hv. by eapply DictReader_row_lookup.
      * by apply elem_of_nil in Hrow.
  - rewrite _load_from_csv_missing in Hload by done.
    injection Hload as _ <-. by apply elem_of_nil in Hrow.
Qed.

Lemma _load_from_csv_passes_through file_path expected_fields :
  passes_through (λ fs, _load_from_csv fs file_path expected_fields)
    file_path expected_fields.
Proof.
  intros fs f Hfs Hfail Hhead.
  rewrite (_load_from_csv_read _ _ _ f) by done.
  unfold rows_of, header_of, data_lines in *.
  destruct (records f) as [|header lines] eqn:Hrec; simpl in *.
  - split; [done|]. by intros i line j k v Hline.
  - change (map (DictReader_row header)
              (filter (λ r, blank r = false) lines))
      with (DictReader (header :: lines)).
    rewrite kept_DictReader, skipped_DictReader, Hhead. split; [done|].
    intros i line j k v Hline Hnd Hk Hv.
    exists (DictReader_row header line). split.
    + unfold DictReader. by rewrite list_lookup_fmap, Hline.
    + by eapply DictReader_row_lookup.
Qed.

(** C9: the certifications file with header
    [title,issuer,date,category,url] and the line
    [AWS Cert,Amazon,2023-01-01,cloud,https://example.com] loads, without a
    diagnostic, as one row that holds exactly these five fields.
    [load_certifications] and [load_blog_posts] pass the rows of their files
    through: for a file that is read to its end and whose header has the
    required columns, they return the rows of all the lines that are not
    blank, in their order, each holding the fields of its line as parsed.
    And every row they return, whatever the file, carries the fields of a
    data line of the file as they were parsed. *)
Theorem certifications_pass_through :
  load_certifications (fs_of "data/certifications.csv" aws_file)
  = ([], Ok [ {[ Some "title" := VStr "AWS Cert";
                 Some "issuer" := VStr "Amazon";
                 Some "date" := VStr "2023-01-01";
                 Some "category" := VStr "cloud";
                 Some "url" := VStr "https://example.com" ]} ])
  ∧ passes_through load_certifications "data/certifications.csv"
      certifications_fields
  ∧ passes_through load_blog_posts "data/blog_posts.csv" blog_posts_fields
  ∧ (∀ (fs : filesystem) l rows row,
       load_certifications fs = (l, Ok rows) → row ∈ rows →
       verbatim_from fs "data/certifications.csv" row)
  ∧ (∀ (fs : filesystem) l rows row,
       load_blog_posts fs = (l, Ok rows) → row ∈ rows →
       verbatim_from fs "data/blog_posts.csv" row).
Proof.
  split; [by vm_compute|].
  split; [apply _load_from_csv_passes_through|].
  split; [apply _load_from_csv_passes_through|].
  split; intros fs l rows row Hload Hrow;
    by eapply _load_from_csv_verbatim.
Qed.

Lemma two_certifications_pass_through :
  load_certifications
    (fs_of "data/certifications.csv" two_certifications_file)
  = ([], Ok (rows_of two_certifications_file))
  ∧ ∀ i line j k v,
      filter (λ r, blank r = false) (data_lines two_certifications_file)
        !! i = Some line →
      NoDup (header_of two_certifications_file) →
      header_of two_certifications_file !! j = Some k →
      line !! j = Some v →
      ∃ row, rows_of two_certifications_file !! i = Some row
             ∧ row !! Some k = Some (VStr v).
Proof.
  apply (proj1 (proj2 certifications_pass_through)
           (fs_of "data/certifications.csv" two_certifications_file)
           two_certifications_file);
    reflexivity.
Defined.

(** ** Strings *)

Lemma split_not_nil sep s : split sep s ≠ [].
Proof.
  destruct s as [|c s]; simpl; [done|].
  destruct (Ascii.eqb c sep); [done|]. by destruct (split sep s).
Qed.

Lemma join_cons2 sep x y l :
  join sep (x :: y :: l) = x +:+ sep +:+ join sep (y :: l).
Proof. done. Qed.

(** Joining the pieces of a split with the separator gives the string
    back. *)
Lemma join_split s : join "," (split comma s) = s.
Proof.
  induction s as [|c s IH]; [done|]. simpl.
  destruct (Ascii.eqb_spec c comma) as [->|Hc].
  - pose proof (split_not_nil comma s) as Hne.
    destruct (split comma s) as [|w ws]; [done|].
    rewrite join_cons2, IH. done.
  - pose proof (split_not_nil comma s) as Hne.
    destruct (split comma s) as [|w ws]; [done|].
    rewrite <- IH. by destruct ws.
Qed.

Lemma split_no_comma x : no_comma x = true → split comma x = [x].
Proof.
  induction x as [|c x IH]; [done|]. simpl. intros Hx.
  apply andb_true_iff in Hx as [Hc Hx]. apply negb_true_iff in Hc.
  rewrite Hc, IH by done. done.
Qed.

Lemma split_app_comma x rest :
  no_comma x = true →
  split comma (x +:+ "," +:+ rest) = x :: split comma rest.
Proof.
  induction x as [|c x IH]; [done|]. simpl. intros Hx.
  apply andb_true_iff in Hx as [Hc Hx]. apply negb_true_iff in Hc.
  rewrite Hc. by rewrite IH.
Qed.

(** Splitting the join of names without commas gives the names back. *)
Lemma split_join names :
  names ≠ [] → Forall (λ x, no_comma x = true) names →
  split comma (join "," names) = names.
Proof.
  induction names as [|x names IH]; [done|]. intros _ Hall.
  apply Forall_cons in Hall as [Hx Hall].
  destruct names as [|y names].
  - by apply split_no_comma.
  - rewrite join_cons2, split_app_comma by done.
    by rewrite IH.
Qed.

Lemma lower_char_t c : lower_char c = "t"%char → c = "t"%char ∨ c = "T"%char.
Proof.
  destruct c as [[] [] [] [] [] [] [] []]; vm_compute; intros [=]; auto.
Qed.

Lemma lower_char_r c : lower_char c = "r"%char → c = "r"%char ∨ c = "R"%char.
Proof.
  destruct c as [[] [] [] [] [] [] [] []]; vm_compute; intros [=]; auto.
Qed.

Lemma lower_char_u c : lower_char c = "u"%char → c = "u"%char ∨ c = "U"%char.
Proof.
  destruct c as [[] [] [] [] [] [] [] []]; vm_compute; intros [=]; auto.
Qed.

Lemma lower_char_e c : lower_char c = "e"%char → c = "e"%char ∨ c = "E"%char.
Proof.
  destruct c as [[] [] [] [] [] [] [] []]; vm_compute; intros [=]; auto.
Qed.

(** The strings whose lower case is the word true. *)
Lemma lower_true_spellings s : lower s = "true" ↔ s ∈ true_spellings.
Proof.
  split.
  - destruct s as [|a [|b [|c [|d [|? ?]]]]]; simpl; try discriminate.
    intros [= Ha Hb Hc Hd].
    destruct (lower_char_t _ Ha) as [->| ->],
             (lower_char_r _ Hb) as [->| ->],
             (lower_char_u _ Hc) as [->| ->],
             (lower_char_e _ Hd) as [->| ->];
      unfold true_spellings; set_solver.
  - unfold true_spellings. intros Hs.
    repeat (apply elem_of_cons in Hs as [->|Hs]; [reflexivity|]).
    by apply elem_of_nil in Hs.
Qed.

Lemma equal_ignoring_case_lower s t :
  equal_ignoring_case s t = true ↔ lower s = lower t.
Proof.
  revert t. induction s as [|a s IH]; intros [|b t]; simpl; try done.
  rewrite andb_true_iff, IH. split.
  - intros [Hab ->]. apply Ascii.eqb_eq in Hab. by rewrite Hab.
  - intros [= Hab Hst]. split; [by apply Ascii.eqb_eq | done].
Qed.

(** ** [load_projects] *)

Ltac case_lookup row key v :=
  let H := fresh "H" v in
  destruct (row !! Some key) as [v|] eqn:H; simpl; [|discriminate].

(** A record is built only from a row that has the eight columns, whose
    [is_current] value is a string and whose [tech_stack] value can be
    split; its fields are then the ones below, and nothing is logged. *)
Lemma make_project_inv row l p :
  make_project row = (l, Ok p) →
  l = [] ∧
  ∃ title description tech category github demo current image stack,
    row !! Some "title" = Some title
    ∧ row !! Some "description" = Some description
    ∧ row !! Some "tech_stack" = Some tech
    ∧ row !! Some "category" = Some category
    ∧ row !! Some "github_url" = Some github
    ∧ row !! Some "demo_url" = Some demo
    ∧ row !! Some "is_current" = Some (VStr current)
    ∧ row !! Some "image_url" = Some image
    ∧ tech_stack_of tech = Ok stack
    ∧ p = {| Project.title := or_else title "Untitled Project";
             Project.description :=
               or_else description "No description provided";
             Project.tech_stack := stack;
             Project.category := or_else category "other";
             Project.github_url := or_else github "#";
             Project.demo_url := or_else demo "#";
             Project.is_current := bool_decide (lower current = "true");
             Project.image_url :=
               or_else image "/static/images/projects/default.png" |}.
Proof.
  unfold make_project, getitem, bind. simpl.
  case_lookup row "title" title.
  case_lookup row "description" description.
  case_lookup row "tech_stack" tech.
  unfold tech_stack_of.
  destruct (truthy tech) eqn:Htruthy; simpl.
  - destruct tech as [s| |ls]; simpl; try discriminate.
    case_lookup row "category" category.
    case_lookup row "github_url" github.
    case_lookup row "demo_url" demo.
    case_lookup row "is_current" current.
    destruct current as [c| |]; simpl; try discriminate.
    case_lookup row "image_url" image.
    intros [= <- <-]. split; [done|].
    eexists _, _, _, _, _, _, _, _, _. rewrite Htruthy. by repeat split.
  - case_lookup row "category" category.
    case_lookup row "github_url" github.
    case_lookup row "demo_url" demo.
    case_lookup row "is_current" current.
    destruct current as [c| |]; simpl; try discriminate.
    case_lookup row "image_url" image.
    intros [= <- <-]. split; [done|].
    eexists _, _, _, _, _, _, _, _, _. rewrite Htruthy. by repeat split.
Qed.

(** A row whose [is_current] column holds [None] makes no record. *)
Lemma make_project_short row :
  (∀ k, k ∈ projects_fields → is_Some (row !! Some k)) →
  row !! Some "is_current" = Some VNone →
  (make_project row).2 = Raise AttributeError.
Proof.
  intros Hall Hcur.
  assert (∀ k, k ∈ projects_fields → ∃ v, row !! Some k = Some v) as Hget.
  { intros k Hk. by apply Hall. }
  destruct (Hget "title") as [v1 H1]; [by apply list_elem_of_In; vm_compute; tauto|].
  destruct (Hget "description") as [v2 H2]; [by apply list_elem_of_In; vm_compute; tauto|].
  destruct (Hget "tech_stack") as [v3 H3]; [by apply list_elem_of_In; vm_compute; tauto|].
  destruct (Hget "category") as [v4 H4]; [by apply list_elem_of_In; vm_compute; tauto|].
  destruct (Hget "github_url") as [v5 H5]; [by apply list_elem_of_In; vm_compute; tauto|].
  destruct (Hget "demo_url") as [v6 H6]; [by apply list_elem_of_In; vm_compute; tauto|].
  unfold make_project, getitem, bind. simpl.
  rewrite H1, H2, H3. simpl.
  destruct (truthy v3) eqn:Htech; simpl.
  - destruct v3 as [s| |ls]; simpl; try done.
    by rewrite H4, H5, H6, Hcur.
  - by rewrite H4, H5, H6, Hcur.
Qed.

(** A line that stops before the [is_current] column makes no record:
    its row has the eight columns, [is_current] holds [None], and [lower]
    is called on it. *)
Lemma short_line_raises header line j :
  NoDup header →
  header_defines projects_fields header = true →
  header !! j = Some "is_current" → (length line ≤ j)%nat →
  (make_project (DictReader_row header line)).2 = Raise AttributeError.
Proof.
  intros Hnd Hhead Hj Hlen. apply make_project_short.
  - intros k Hk. apply DictReader_row_is_Some.
    unfold header_defines in Hhead.
    rewrite forallb_forall in Hhead.
    apply list_elem_of_In, Hhead in Hk. by apply bool_decide_eq_true in Hk.
  - by eapply DictReader_row_short.
Qed.

Lemma for_each_project_inv rows acc l ps :
  for_each project_step rows acc = (l, Ok ps) →
  l = [] ∧ ∃ ps', ps = acc ++ ps'
    ∧ Forall2 (λ row p, make_project row = ([], Ok p)) rows ps'.
Proof.
  revert acc l. induction rows as [|row rows IH]; intros acc l; simpl.
  - intros [= <- <-]. split; [done|]. exists []. by rewrite app_nil_r.
  - unfold project_step at 1. unfold bind at 1 2.
    destruct (make_project row) as [l1 [p|e]] eqn:Hrow; simpl;
      [|discriminate].
    apply make_project_inv in Hrow as Hinv. destruct Hinv as [-> _].
    destruct (for_each project_step rows (acc ++ [p])) as [l2 r] eqn:Hrest.
    simpl. intros [= <- ->].
    apply IH in Hrest as [-> (ps' & -> & Hall)].
    split; [done|]. exists (p :: ps').
    split; [by rewrite <- app_assoc | by constructor].
Qed.

(** The records [load_projects] returns are the records of the rows
    [_load_from_csv] returns, one for one and in their order. *)
Lemma load_projects_inv (fs : filesystem) l ps :
  load_projects fs = (l, Ok ps) →
  ∃ rows,
    _load_from_csv fs "data/projects.csv" projects_fields = (l, Ok rows)
    ∧ Forall2 (λ row p, make_project row = ([], Ok p)) rows ps.
Proof.
  unfold load_projects. simpl.
  change (os_path_join "data" "projects.csv") with "data/projects.csv".
  destruct (_load_from_csv_returns "data/projects.csv" projects_fields fs)
    as [rows Hrows].
  destruct (_load_from_csv fs "data/projects.csv" projects_fields)
    as [l1 r] eqn:Hload.
  simpl in Hrows. subst r. unfold bind.
  destruct (for_each project_step rows []) as [l2 r] eqn:Hloop.
  intros [= <- ->].
  apply for_each_project_inv in Hloop as [-> (ps' & -> & Hall)].
  exists rows. by rewrite app_nil_r.
Qed.

Lemma load_projects_record (fs : filesystem) l ps p :
  load_projects fs = (l, Ok ps) → p ∈ ps →
  ∃ row, verbatim_from fs "data/projects.csv" row
         ∧ make_project row = ([], Ok p).
Proof.
  intros Hload Hp. apply load_projects_inv in Hload as (rows & Hrows & Hall).
  apply list_elem_of_lookup in Hp as [i Hi].
  destruct (Forall2_lookup_r _ _ _ _ _ Hall Hi) as (row & Hrow & Hmake).
  exists row. split; [|done].
  eapply _load_from_csv_verbatim; [done|].
  by eapply list_elem_of_lookup_2.
Qed.

(** ** Claims about the project records *)

(** C4: in every record [load_projects] returns, [is_current] is true
    exactly when the raw [is_current] field of its row equals the word true
    up to the case of the letters, that is, when it is one of the sixteen
    spellings of that word; the empty field gives false. *)
Theorem is_current_iff_true (fs : filesystem) l ps p :
  load_projects fs = (l, Ok ps) → p ∈ ps →
  ∃ row raw,
    verbatim_from fs "data/projects.csv" row
    ∧ make_project row = ([], Ok p)
    ∧ row !! Some "is_current" = Some (VStr raw)
    ∧ (Project.is_current p = true ↔ equal_ignoring_case raw "true" = true)
    ∧ (Project.is_current p = true ↔ raw ∈ true_spellings)
    ∧ (raw = "" → Project.is_current p = false).
Proof.
  intros Hload Hp.
  destruct (load_projects_record _ _ _ _ Hload Hp) as (row & Hrow & Hmake).
  destruct (make_project_inv _ _ _ Hmake)
    as (_ & t & d & ts & c & g & dm & raw & im & stack & _ & _ & _ & _ & _
          & _ & Hcur & _ & _ & ->).
  exists row, raw. simpl. rewrite bool_decide_eq_true.
  split; [done|]. split; [done|]. split; [done|]. split; [|split].
  - by rewrite equal_ignoring_case_lower.
  - apply lower_true_spellings.
  - intros ->. by apply bool_decide_eq_false.
Qed.

Lemma portfolio_project_current :
  ∃ row raw,
    verbatim_from (fs_of "data/projects.csv" projects_file)
      "data/projects.csv" row
    ∧ make_project row = ([], Ok portfolio_project)
    ∧ row !! Some "is_current" = Some (VStr raw)
    ∧ (Project.is_current portfolio_project = true
       ↔ equal_ignoring_case raw "true" = true)
    ∧ (Project.is_current portfolio_project = true ↔ raw ∈ true_spellings)
    ∧ (raw = "" → Project.is_current portfolio_project = false).
Proof.
  apply (is_current_iff_true (fs_of "data/projects.csv" projects_file)
           [] sample_projects).
  - reflexivity.
  - apply list_elem_of_here.
Defined.

Lemma or_else_defaulted raw fallback :
  or_else (VStr raw) fallback = defaulted raw fallback.
Proof. unfold or_else, defaulted. simpl. by destruct (bool_decide _). Qed.

(** C5: a row whose eight project columns hold strings makes a record, and
    each field that has a fallback holds it when the raw field is the empty
    string and the raw field otherwise: [Untitled Project] for the title,
    the one-element list [Unknown] for the technologies, [other] for the
    category, [#] for the two links and the default picture for the image;
    the empty [is_current] field gives false. *)
Theorem empty_fields_take_defaults row title description tech category
    github demo current image :
  row !! Some "title" = Some (VStr title) →
  row !! Some "description" = Some (VStr description) →
  row !! Some "tech_stack" = Some (VStr tech) →
  row !! Some "category" = Some (VStr category) →
  row !! Some "github_url" = Some (VStr github) →
  row !! Some "demo_url" = Some (VStr demo) →
  row !! Some "is_current" = Some (VStr current) →
  row !! Some "image_url" = Some (VStr image) →
  make_project row
  = ([], Ok {| Project.title := defaulted title "Untitled Project";
               Project.description :=
                 defaulted description "No description provided";
               Project.tech_stack :=
                 if bool_decide (tech = "") then ["Unknown"]
                 else split comma tech;
               Project.category := defaulted category "other";
               Project.github_url := defaulted github "#";
               Project.demo_url := defaulted demo "#";
               Project.is_current := bool_decide (lower current = "true");
               Project.image_url :=
                 defaulted image "/static/images/projects/default.png" |}).
Proof.
  intros H1 H2 H3 H4 H5 H6 H7 H8.
  unfold make_project, getitem, bind. simpl.
  rewrite H1, H2, H3. simpl.
  rewrite <- !or_else_defaulted.
  destruct (bool_decide (tech = "")); simpl;
    by rewrite H4, H5, H6, H7, H8.
Qed.

Lemma empty_line_project :
  make_project (DictReader_row projects_header [""; ""; ""; ""; ""; ""; ""; ""])
  = ([], Ok default_project).
Proof.
  apply (empty_fields_take_defaults
           (DictReader_row projects_header [""; ""; ""; ""; ""; ""; ""; ""])
           "" "" "" "" "" "" "" ""); reflexivity.
Defined.

(** C8: when the raw [tech_stack] field of the row of a record is not
    empty, joining the technologies of the record with commas gives the raw
    field back, splitting that at the commas gives the technologies of the
    record again, and these are the technology names the field was written
    from, whenever none of the names has a comma in it. *)
Theorem tech_stack_round_trip row l p raw :
  make_project row = (l, Ok p) →
  row !! Some "tech_stack" = Some (VStr raw) →
  raw ≠ "" →
  join "," (Project.tech_stack p) = raw
  ∧ split comma (join "," (Project.tech_stack p)) = Project.tech_stack p
  ∧ ∀ names, Forall (λ x, no_comma x = true) names →
             join "," names = raw →
             split comma (join "," (Project.tech_stack p)) = names.
Proof.
  intros Hmake Hraw Hne.
  destruct (make_project_inv _ _ _ Hmake)
    as (_ & t & d & ts & c & g & dm & cur & im & stack & _ & _ & Hts & _ & _
          & _ & _ & _ & Hstack & ->).
  simpl. rewrite Hraw in Hts. injection Hts as <-.
  unfold tech_stack_of in Hstack. simpl in Hstack.
  rewrite bool_decide_eq_false_2 in Hstack by done. simpl in Hstack.
  injection Hstack as <-.
  rewrite join_split. split; [done|]. split; [done|].
  intros names Hnames <-. apply split_join; [|done].
  intros ->. by apply Hne.
Qed.

Lemma portfolio_project_round_trip :
  join "," (Project.tech_stack portfolio_project) = "Python,Flask"
  ∧ split comma (join "," (Project.tech_stack portfolio_project))
    = Project.tech_stack portfolio_project
  ∧ ∀ names, Forall (λ x, no_comma x = true) names →
             join "," names = "Python,Flask" →
             split comma (join "," (Project.tech_stack portfolio_project))
             = names.
Proof.
  apply (tech_stack_round_trip
           (DictReader_row projects_header
              ["Portfolio"; "My site"; "Python,Flask"; "web";
               "https://github.com/Ad2m1109/portfolio";
               "https://example.com"; "TRUE";
               "/static/images/projects/portfolio.png"])
           [] portfolio_project "Python,Flask").
  - reflexivity.
  - reflexivity.
  - discriminate.
Defined.

(** C10: every record [load_projects] returns has at least one technology:
    the one-element list [Unknown] when the raw field is empty, and the
    pieces of the raw field cut at the commas, of which there is at least
    one, when it is not. *)
Theorem tech_stack_never_empty (fs : filesystem) l ps p :
  load_projects fs = (l, Ok ps) → p ∈ ps →
  Project.tech_stack p ≠ []
  ∧ ∃ row,
      verbatim_from fs "data/projects.csv" row
      ∧ make_project row = ([], Ok p)
      ∧ (row !! Some "tech_stack" = Some (VStr "") →
         Project.tech_stack p = ["Unknown"])
      ∧ (∀ raw, row !! Some "tech_stack" = Some (VStr raw) → raw ≠ "" →
                Project.tech_stack p = split comma raw
                ∧ (0 < length (split comma raw))%nat).
Proof.
  intros Hload Hp.
  destruct (load_projects_record _ _ _ _ Hload Hp) as (row & Hrow & Hmake).
  destruct (make_project_inv _ _ _ Hmake)
    as (_ & t & d & ts & c & g & dm & cur & im & stack & _ & _ & Hts & _ & _
          & _ & _ & _ & Hstack & Hp').
  assert (Project.tech_stack p = stack) as Hfield by (by rewrite Hp').
  rewrite Hfield. clear Hp' Hfield.
  unfold tech_stack_of in Hstack. split.
  - destruct (truthy ts); [|by injection Hstack as <-].
    destruct ts as [s| |ls]; try discriminate.
    injection Hstack as <-. apply split_not_nil.
  - exists row. split; [done|]. split; [done|]. split.
    + intros Hempty. rewrite Hempty in Hts. injection Hts as <-.
      simpl in Hstack. by injection Hstack as <-.
    + intros raw Hraw Hne. rewrite Hraw in Hts. injection Hts as <-.
      simpl in Hstack. rewrite bool_decide_eq_false_2 in Hstack by done.
      simpl in Hstack. injection Hstack as <-. split; [done|].
      pose proof (split_not_nil comma raw).
      destruct (split comma raw); [done | simpl; lia].
Qed.

Lemma default_project_tech_stack :
  Project.tech_stack default_project ≠ []
  ∧ ∃ row,
      verbatim_from (fs_of "data/projects.csv" projects_file)
        "data/projects.csv" row
      ∧ make_project row = ([], Ok default_project)
      ∧ (row !! Some "tech_stack" = Some (VStr "") →
         Project.tech_stack default_project = ["Unknown"])
      ∧ (∀ raw, row !! Some "tech_stack" = Some (VStr raw) → raw ≠ "" →
                Project.tech_stack default_project = split comma raw
                ∧ (0 < length (split comma raw))%nat).
Proof.
  apply (tech_stack_never_empty (fs_of "data/projects.csv" projects_file)
           [] sample_projects).
  - reflexivity.
  - apply list_elem_of_further, list_elem_of_here.
Defined.

(** ** [get_portfolio_data] *)

(** [get_portfolio_data] returns exactly when [load_projects] does: the two
    other loaders always return. *)
Lemma get_portfolio_data_returns (fs : filesystem) :
  returns (get_portfolio_data fs) ↔ returns (load_projects fs).
Proof.
  unfold get_portfolio_data, load_blog_posts, load_certifications. simpl.
  destruct (_load_from_csv_returns
              (os_path_join "data" "blog_posts.csv") blog_posts_fields fs)
    as [blog Hblog].
  destruct (_load_from_csv_returns
              (os_path_join "data" "certifications.csv")
              certifications_fields fs)
    as [cert Hcert].
  destruct (_load_from_csv fs _ blog_posts_fields) as [l1 r1].
  destruct (_load_from_csv fs _ certifications_fields) as [l3 r3].
  simpl in *. subst r1 r3. unfold bind, returns.
  destruct (load_projects fs) as [l2 [ps|e]]; simpl.
  - split; intros _; by eexists.
  - split; intros [a Ha]; discriminate.
Qed.

(** C2, at the input on which the code departs from it. The three files are
    present and readable; the data line of the projects file has six values
    for the eight columns of its header. [_load_from_csv] keeps the row,
    with [None] under [is_current], and [load_projects] calls [lower] on
    it: [get_portfolio_data] ends with [AttributeError], after the blog
    posts were loaded and before the certifications are. *)
Theorem short_project_row_raises :
  header_defines projects_fields projects_header = true
  ∧ _load_from_csv fs_short_project "data/projects.csv" projects_fields
    = ([], Ok [DictReader_row projects_header
                 ["Portfolio"; "My site"; "Python"; "web";
                  "https://github.com/Ad2m1109/portfolio";
                  "https://example.com"]])
  ∧ load_projects fs_short_project = ([], Raise AttributeError)
  ∧ get_portfolio_data fs_short_project = ([], Raise AttributeError)
  ∧ raises (get_portfolio_data fs_short_project)
  ∧ ¬ returns (get_portfolio_data fs_short_project).
Proof.
  split; [reflexivity|]. split; [reflexivity|].
  split; [reflexivity|]. split; [reflexivity|]. split.
  - by exists AttributeError.
  - intros [a Ha]. discriminate.
Qed.

(** * Further properties *)

(** ** The values of a row *)

Section row_values.
Implicit Types (d : dict) (fieldnames row keys : list string) (k : string).

Lemma zip_fold_values (P : pyval → Prop) d fieldnames row :
  (∀ s, P (VStr s)) →
  (∀ k v, d !! Some k = Some v → P v) →
  ∀ k v, foldl (λ d kv, <[Some kv.1 := VStr kv.2]> d) d
           (zip fieldnames row) !! Some k = Some v → P v.
Proof.
  intros HP. revert d row.
  induction fieldnames as [|f fieldnames IH]; intros d row Hd; [done|].
  destruct row as [|w row]; [done|]. simpl.
  apply IH. intros k v.
  destruct (decide (f = k)) as [->|Hne].
  - rewrite lookup_insert_eq. by intros [= <-].
  - rewrite lookup_insert_ne by congruence. apply Hd.
Qed.

Lemma fill_fold_values (P : pyval → Prop) d keys :
  P VNone →
  (∀ k v, d !! Some k = Some v → P v) →
  ∀ k v, foldl (λ d key, <[Some key := VNone]> d) d keys !! Some k = Some v
         → P v.
Proof.
  intros HP. revert d.
  induction keys as [|f keys IH]; intros d Hd; [done|]. simpl.
  apply IH. intros k v.
  destruct (decide (f = k)) as [->|Hne].
  - rewrite lookup_insert_eq. by intros [= <-].
  - rewrite lookup_insert_ne by congruence. apply Hd.
Qed.

(** Under a column name a row holds a parsed field or [None], never a
    list. *)
Lemma DictReader_row_field_value fieldnames row k v :
  DictReader_row fieldnames row !! Some k = Some v → field_value v = true.
Proof.
  unfold DictReader_row, dict_zip.
  destruct (length fieldnames <? length row)%nat.
  - rewrite lookup_insert_ne by done.
    apply (zip_fold_values (λ v, field_value v = true)); [done|].
    intros k' v'. by rewrite lookup_empty.
  - destruct (length row <? length fieldnames)%nat.
    + apply (fill_fold_values (λ v, field_value v = true)); [done|].
      apply (zip_fold_values (λ v, field_value v = true)); [done|].
      intros k' v'. by rewrite lookup_empty.
    + apply (zip_fold_values (λ v, field_value v = true)); [done|].
      intros k' v'. by rewrite lookup_empty.
Qed.

(** A line with one value for each column gives a row of parsed fields. *)
Lemma DictReader_row_full fieldnames row k v :
  length row = length fieldnames →
  DictReader_row fieldnames row !! Some k = Some v → is_string v = true.
Proof.
  intros Hlen. unfold DictReader_row, dict_zip.
  rewrite Hlen, Nat.ltb_irrefl.
  apply (zip_fold_values (λ v, is_string v = true)); [done|].
  intros k' v'. by rewrite lookup_empty.
Qed.
End row_values.

(** ** More on [_load_from_csv] *)

Lemma rows_of_DictReader f : DictReader (records f) = rows_of f.
Proof.
  unfold rows_of, header_of, data_lines, DictReader.
  by destruct (records f).
Qed.

(** X1: a file that is read to its end is loaded all or nothing. The test
    of the loop looks at the header only: when the header has every required
    column, every line that is not blank gives a row, whatever the number of
    its values, and nothing is logged; when the header lacks one, every such
    line gives a warning and no row is returned. Blank lines give neither. *)
Theorem readable_source_all_or_nothing (fs : filesystem) file_path
    expected_fields f :
  fs !! file_path = Some f → failure f = false →
  _load_from_csv fs file_path expected_fields
  = if header_defines expected_fields (header_of f)
    then ([], Ok (rows_of f))
    else (map (λ row, warning (SkippingInvalidRow file_path row)) (rows_of f),
          Ok []).
Proof.
  intros Hfs Hfail.
  rewrite (_load_from_csv_read _ _ _ f) by done.
  unfold rows_of, header_of, data_lines.
  destruct (records f) as [|header lines] eqn:Hrec.
  - simpl. by destruct (header_defines _ _).
  - rewrite kept_DictReader, skipped_DictReader. simpl.
    by destruct (header_defines _ _).
Qed.

Lemma aws_short_file_all_or_nothing :
  _load_from_csv (fs_of "data/certifications.csv" aws_short_file)
    "data/certifications.csv" certifications_fields
  = if header_defines certifications_fields (header_of aws_short_file)
    then ([], Ok (rows_of aws_short_file))
    else (map (λ row, warning
                        (SkippingInvalidRow "data/certifications.csv" row))
            (rows_of aws_short_file),
          Ok []).
Proof.
  apply (readable_source_all_or_nothing
           (fs_of "data/certifications.csv" aws_short_file)
           "data/certifications.csv" certifications_fields aws_short_file);
    reflexivity.
Defined.

(** The rows [_load_from_csv] returns passed the test of its loop and come
    from the lines of the file. *)
Lemma _load_from_csv_kept (fs : filesystem) file_path expected_fields l rows row :
  _load_from_csv fs file_path expected_fields = (l, Ok rows) →
  row ∈ rows →
  has_fields expected_fields row = true
  ∧ ∃ header line, row = DictReader_row header line.
Proof.
  intros Hload Hrow.
  destruct (fs !! file_path) as [f|] eqn:Hfs.
  - destruct (failure f) eqn:Hfail.
    + rewrite (_load_from_csv_failed _ _ _ f) in Hload by done.
      injection Hload as _ <-. by apply elem_of_nil in Hrow.
    + rewrite (_load_from_csv_read _ _ _ f) in Hload by done.
      injection Hload as _ <-. unfold kept in Hrow.
      apply list_elem_of_filter in Hrow as [Hkept Hrow]. split; [done|].
      rewrite rows_of_DictReader in Hrow. unfold rows_of in Hrow.
      apply list_elem_of_fmap in Hrow as (line & -> & _). by eexists _, _.
  - rewrite _load_from_csv_missing in Hload by done.
    injection Hload as _ <-. by apply elem_of_nil in Hrow.
Qed.

(** ** More on [load_projects] *)

(** What [make_project] does with a row that passed the test of the loader:
    it makes a record when the [is_current] value is a string and raises
    [AttributeError] when it is [None]; it logs nothing. *)
Lemma make_project_of_fields row :
  has_fields projects_fields row = true →
  (∀ k v, row !! Some k = Some v → field_value v = true) →
  if current_is_string row then ∃ p, make_project row = ([], Ok p)
  else make_project row = ([], Raise AttributeError)
       ∧ row !! Some "is_current" = Some VNone.
Proof.
  intros Hfields Hvalues. unfold has_fields in Hfields.
  rewrite forallb_forall in Hfields.
  assert (∀ k, k ∈ projects_fields →
               ∃ v, row !! Some k = Some v ∧ field_value v = true) as Hget.
  { intros k Hk. apply list_elem_of_In, Hfields in Hk.
    apply bool_decide_eq_true in Hk as [v Hv]. exists v. split; [done|].
    by eapply Hvalues. }
  destruct (Hget "title") as (v1 & H1 & _);
    [by apply list_elem_of_In; vm_compute; tauto|].
  destruct (Hget "description") as (v2 & H2 & _);
    [by apply list_elem_of_In; vm_compute; tauto|].
  destruct (Hget "tech_stack") as (v3 & H3 & Hv3);
    [by apply list_elem_of_In; vm_compute; tauto|].
  destruct (Hget "category") as (v4 & H4 & _);
    [by apply list_elem_of_In; vm_compute; tauto|].
  destruct (Hget "github_url") as (v5 & H5 & _);
    [by apply list_elem_of_In; vm_compute; tauto|].
  destruct (Hget "demo_url") as (v6 & H6 & _);
    [by apply list_elem_of_In; vm_compute; tauto|].
  destruct (Hget "is_current") as (v7 & H7 & Hv7);
    [by apply list_elem_of_In; vm_compute; tauto|].
  destruct (Hget "image_url") as (v8 & H8 & _);
    [by apply list_elem_of_In; vm_compute; tauto|].
  unfold current_is_string, make_project, getitem, bind. simpl.
  rewrite H1, H2, H3, H7. simpl.
  destruct v3 as [tech| |ls]; [| |done]; destruct v7 as [cur| |ls]; try done;
    simpl; try destruct (bool_decide (tech = "")); simpl;
    rewrite H4, H5, H6, ?H8; simpl; try (by eexists); done.
Qed.

Lemma for_each_project_of_fields rows acc :
  Forall (λ row, has_fields projects_fields row = true
                 ∧ ∀ k v, row !! Some k = Some v → field_value v = true)
         rows →
  if forallb current_is_string rows
  then ∃ ps, for_each project_step rows acc = ([], Ok ps)
  else for_each project_step rows acc = ([], Raise AttributeError).
Proof.
  intros Hrows. revert acc.
  induction Hrows as [|row rows [Hfields Hvalues] _ IH]; intros acc; simpl.
  - by eexists.
  - pose proof (make_project_of_fields row Hfields Hvalues) as Hmake.
    unfold project_step at 1 3. unfold bind at 1 3.
    destruct (current_is_string row); simpl.
    + destruct Hmake as [p ->]. simpl.
      specialize (IH (acc ++ [p])).
      destruct (forallb current_is_string rows).
      * destruct IH as [ps ->]. by eexists.
      * by rewrite IH.
    + by destruct Hmake as [-> _].
Qed.

Lemma loaded_rows_of_fields (fs : filesystem) l rows :
  _load_from_csv fs "data/projects.csv" projects_fields = (l, Ok rows) →
  Forall (λ row, has_fields projects_fields row = true
                 ∧ ∀ k v, row !! Some k = Some v → field_value v = true)
         rows.
Proof.
  intros Hload. apply Forall_forall. intros row Hrow.
  destruct (_load_from_csv_kept _ _ _ _ _ _ Hload Hrow)
    as (Hkept & header & line & ->).
  split; [done|]. intros k v. apply DictReader_row_field_value.
Qed.

(** The outcome of [load_projects] in terms of the rows of the loader. *)
Lemma load_projects_outcome (fs : filesystem) :
  ∃ l rows,
    _load_from_csv fs "data/projects.csv" projects_fields = (l, Ok rows)
    ∧ if forallb current_is_string rows
      then ∃ ps, load_projects fs = (l, Ok ps)
      else load_projects fs = (l, Raise AttributeError).
Proof.
  destruct (_load_from_csv_returns "data/projects.csv" projects_fields fs)
    as [rows Hrows].
  destruct (_load_from_csv fs "data/projects.csv" projects_fields)
    as [l r] eqn:Hload.
  simpl in Hrows. subst r. exists l, rows. split; [done|].
  pose proof (for_each_project_of_fields rows []
                (loaded_rows_of_fields _ _ _ Hload)) as Hloop.
  unfold load_projects. simpl.
  change (os_path_join "data" "projects.csv") with "data/projects.csv".
  rewrite Hload. unfold bind.
  destruct (forallb current_is_string rows).
  - destruct Hloop as [ps ->]. exists ps. by rewrite app_nil_r.
  - rewrite Hloop. by rewrite app_nil_r.
Qed.

(** X2: [load_projects] never raises [KeyError] nor lets a read error out:
    the only exception that leaves it is [AttributeError], and then a row
    the loader returned holds [None] under [is_current]. *)
Theorem load_projects_raises_only_AttributeError (fs : filesystem) l e :
  load_projects fs = (l, Raise e) →
  e = AttributeError
  ∧ ∃ rows row,
      _load_from_csv fs "data/projects.csv" projects_fields = (l, Ok rows)
      ∧ row ∈ rows
      ∧ row !! Some "is_current" = Some VNone.
Proof.
  intros Hraise.
  destruct (load_projects_outcome fs) as (l' & rows & Hload & Hout).
  destruct (forallb current_is_string rows) eqn:Hall.
  - destruct Hout as [ps Hps]. congruence.
  - rewrite Hout in Hraise. injection Hraise as <- <-. split; [done|].
    exists rows.
    assert (∃ row, row ∈ rows ∧ current_is_string row = false)
      as (row & Hrow & Hcur).
    { clear -Hall. induction rows as [|row rows IH]; [done|].
      simpl in Hall. apply andb_false_iff in Hall as [Hrow|Hrest].
      - exists row. split; [apply list_elem_of_here | done].
      - destruct (IH Hrest) as (row' & Hin & Hcur).
        exists row'. split; [by apply list_elem_of_further | done]. }
    exists row. split; [done|]. split; [done|].
    pose proof (loaded_rows_of_fields _ _ _ Hload) as Hforall.
    rewrite Forall_forall in Hforall.
    destruct (Hforall row Hrow) as [Hfields Hvalues].
    pose proof (make_project_of_fields row Hfields Hvalues) as Hmake.
    rewrite Hcur in Hmake. by destruct Hmake.
Qed.

Lemma short_project_file_raises_AttributeError :
  AttributeError = AttributeError
  ∧ ∃ rows row,
      _load_from_csv fs_short_project "data/projects.csv" projects_fields
      = ([], Ok rows)
      ∧ row ∈ rows
      ∧ row !! Some "is_current" = Some VNone.
Proof.
  apply (load_projects_raises_only_AttributeError fs_short_project []
           AttributeError).
  reflexivity.
Defined.

(** X3: [load_projects] returns exactly when every row the loader returned
    holds a string under [is_current]; its diagnostics are those of the
    loader, whether it returns or raises. *)
Theorem load_projects_returns_iff (fs : filesystem) :
  ∃ l rows,
    _load_from_csv fs "data/projects.csv" projects_fields = (l, Ok rows)
    ∧ (load_projects fs).1 = l
    ∧ (returns (load_projects fs)
       ↔ Forall (λ row, ∃ s, row !! Some "is_current" = Some (VStr s)) rows).
Proof.
  destruct (load_projects_outcome fs) as (l & rows & Hload & Hout).
  exists l, rows. split; [done|].
  assert (forallb current_is_string rows = true
          ↔ Forall (λ row, ∃ s, row !! Some "is_current" = Some (VStr s))
              rows) as Hiff.
  { rewrite forallb_forall, Forall_forall.
    split; intros H row Hrow.
    - apply list_elem_of_In, H in Hrow. unfold current_is_string in Hrow.
      destruct (row !! Some "is_current") as [[s| |]|]; try done.
      by exists s.
    - apply list_elem_of_In, H in Hrow as [s Hs].
      unfold current_is_string. by rewrite Hs. }
  destruct (forallb current_is_string rows).
  - destruct Hout as [ps Hps]. rewrite Hps. split; [done|].
    split; [intros _; by apply Hiff | intros _; by exists ps].
  - rewrite Hout. split; [done|]. split.
    + intros [ps Hps]. discriminate.
    + intros H. apply Hiff in H. discriminate.
Qed.

Lemma well_formed_rows (fs : filesystem) file_path expected_fields f :
  fs !! file_path = Some f →
  well_formed expected_fields f = true →
  _load_from_csv fs file_path expected_fields
  = ([], Ok (map (DictReader_row (header_of f)) (data_lines f)))
  ∧ Forall (λ line, length line = length (header_of f)) (data_lines f).
Proof.
  intros Hfs Hwf. unfold well_formed in Hwf.
  apply andb_true_iff in Hwf as [Hfail Hwf].
  apply negb_true_iff in Hfail.
  destruct (records f) as [|header lines] eqn:Hrec; [done|].
  apply andb_true_iff in Hwf as [Hhead Hlines].
  rewrite (complete_header_keeps_every_row _ _ _ f header lines) by done.
  unfold data_lines, header_of. rewrite Hrec. simpl.
  assert (Forall (λ line, blank line = false
                          ∧ length line = length header) lines) as Hall.
  { apply Forall_forall. intros line Hline.
    rewrite forallb_forall in Hlines.
    apply list_elem_of_In, Hlines in Hline.
    apply andb_true_iff in Hline as [Hb Hl].
    apply negb_true_iff in Hb. by apply Nat.eqb_eq in Hl. }
  split.
  - do 3 f_equal. clear -Hall.
    induction Hall as [|line lines [Hb _] _ IH]; [done|].
    rewrite filter_cons, decide_True by done. by rewrite IH.
  - eapply Forall_impl; [done|]. by intros line [_ ?].
Qed.

(** X4: for a well-formed projects file [load_projects] returns, without a
    diagnostic, one record for each data line, in the order of the lines:
    the record at each position is the one made of the row of the line at
    that position. *)
Theorem well_formed_projects_file (fs : filesystem) f :
  fs !! "data/projects.csv" = Some f →
  well_formed projects_fields f = true →
  ∃ ps,
    load_projects fs = ([], Ok ps)
    ∧ length ps = length (data_lines f)
    ∧ Forall2 (λ line p,
                 make_project (DictReader_row (header_of f) line)
                 = ([], Ok p))
              (data_lines f) ps.
Proof.
  intros Hfs Hwf.
  destruct (well_formed_rows _ _ _ _ Hfs Hwf) as [Hload Hlen].
  destruct (load_projects_outcome fs) as (l & rows & Hload' & Hout).
  rewrite Hload in Hload'. injection Hload' as <- <-.
  assert (forallb current_is_string
            (map (DictReader_row (header_of f)) (data_lines f)) = true)
    as Hall.
  { apply forallb_forall. intros row Hrow.
    apply list_elem_of_In in Hrow.
    pose proof (loaded_rows_of_fields _ _ _ Hload) as Hrows.
    rewrite Forall_forall in Hrows.
    destruct (Hrows row Hrow) as [Hfields _].
    apply list_elem_of_fmap in Hrow as (line & -> & Hline).
    rewrite Forall_forall in Hlen. specialize (Hlen line Hline).
    unfold has_fields in Hfields. rewrite forallb_forall in Hfields.
    assert (In "is_current" projects_fields) as Hin
      by (vm_compute; tauto).
    apply Hfields, bool_decide_eq_true in Hin as [v Hv].
    pose proof (DictReader_row_full _ _ _ _ Hlen Hv) as Hstr.
    unfold current_is_string. rewrite Hv. by destruct v. }
  rewrite Hall in Hout. destruct Hout as [ps Hps]. exists ps.
  split; [done|].
  apply load_projects_inv in Hps as (rows & Hrows & Hmake).
  rewrite Hload in Hrows. injection Hrows as <-.
  split.
  - apply Forall2_length in Hmake. by rewrite length_map in Hmake.
  - by apply Forall2_fmap_l in Hmake.
Qed.

Lemma projects_file_records :
  ∃ ps,
    load_projects (fs_of "data/projects.csv" projects_file) = ([], Ok ps)
    ∧ length ps = length (data_lines projects_file)
    ∧ Forall2 (λ line p,
                 make_project (DictReader_row (header_of projects_file) line)
                 = ([], Ok p))
              (data_lines projects_file) ps.
Proof.
  apply (well_formed_projects_file
           (fs_of "data/projects.csv" projects_file) projects_file);
    reflexivity.
Defined.

(** ** The pieces of a split *)





(** ** More on [get_portfolio_data] *)

(** X6: how [get_portfolio_data] composes the loaders. The blog posts and
    the certifications always load. When the projects load, the result
    holds the three lists as loaded, beside the fixed profile, and the
    diagnostics of the three loaders in the order blog posts, projects,
    certifications. When the projects raise, the exception leaves
    [get_portfolio_data] and the certifications are not loaded: their
    diagnostics are absent. *)
Theorem get_portfolio_data_composes (fs : filesystem) :
  ∃ lb blog lc certs,
    load_blog_posts fs = (lb, Ok blog)
    ∧ load_certifications fs = (lc, Ok certs)
    ∧ match load_projects fs with
      | (lp, Ok ps) =>
          get_portfolio_data fs
          = (lb ++ lp ++ lc,
             Ok {| Portfolio.name := "Adem Youssfi";
                   Portfolio.title :=
                     "AI Expert | Full Stack Developer | Technical Educator";
                   Portfolio.about := static_about;
                   Portfolio.experience := static_experience;
                   Portfolio.education := static_education;
                   Portfolio.blog_posts := blog;
                   Portfolio.projects := ps;
                   Portfolio.certifications := certs;
                   Portfolio.contact := static_contact;
                   Portfolio.stats := static_stats |})
      | (lp, Raise e) => get_portfolio_data fs = (lb ++ lp, Raise e)
      end.
Proof.
  unfold get_portfolio_data, load_blog_posts, load_certifications. simpl.
  destruct (_load_from_csv_returns
              (os_path_join "data" "blog_posts.csv") blog_posts_fields fs)
    as [blog Hblog].
  destruct (_load_from_csv_returns
              (os_path_join "data" "certifications.csv")
              certifications_fields fs)
    as [cert Hcert].
  destruct (_load_from_csv fs _ blog_posts_fields) as [lb rb].
  destruct (_load_from_csv fs _ certifications_fields) as [lc rc].
  simpl in *. subst rb rc. exists lb, blog, lc, cert.
  split; [done|]. split; [done|]. unfold bind.
  destruct (load_projects fs) as [lp [ps|e]]; simpl; [|done].
  by rewrite app_nil_r.
Qed.

(** ** [security_headers] *)

Section headers.
Implicit Types (l : header_list) (key value name : string).

Lemma same_header_refl key : same_header key key = true.
Proof. by apply bool_decide_eq_true. Qed.

Lemma same_header_trans a b c :
  same_header a b = true → same_header b c = true → same_header a c = true.
Proof.
  unfold same_header. rewrite !bool_decide_eq_true. congruence.
Qed.

Lemma same_header_sym a b : same_header a b = same_header b a.
Proof. unfold same_header. apply bool_decide_ext. split; congruence. Qed.

Lemma headers_get_filter key name l :
  same_header name key = false →
  headers_get name (filter (λ kv, same_header kv.1 key = false) l)
  = headers_get name l.
Proof.
  intros Hne. induction l as [|[k v] l IH]; [done|].
  rewrite filter_cons. simpl.
  destruct (same_header k key) eqn:Hk; simpl.
  - destruct (same_header k name) eqn:Hkn; [|done].
    rewrite same_header_sym in Hkn.
    by rewrite (same_header_trans _ _ _ Hkn Hk) in Hne.
  - by rewrite IH.
Qed.

(** Reading a header that was just set gives the value set, under any
    spelling of its name. *)
Lemma headers_get_set key value name l :
  same_header key name = true →
  headers_get name (headers_set key value l) = Some value.
Proof.
  intros Hsame. induction l as [|[k v] l IH]; simpl.
  - by rewrite Hsame.
  - destruct (same_header k key) eqn:Hk; simpl.
    + by rewrite Hsame.
    + destruct (same_header k name) eqn:Hkn; [|done].
      rewrite (same_header_sym key name) in Hsame.
      by rewrite (same_header_trans _ _ _ Hkn Hsame) in Hk.
Qed.

(** Setting a header leaves the reading of the other names as it was. *)
Lemma headers_get_set_other key value name l :
  same_header name key = false →
  headers_get name (headers_set key value l) = headers_get name l.
Proof.
  intros Hne. induction l as [|[k v] l IH]; simpl.
  - rewrite same_header_sym. by rewrite Hne.
  - destruct (same_header k key) eqn:Hk; simpl.
    + rewrite (same_header_sym key name), Hne.
      rewrite headers_get_filter by done.
      destruct (same_header k name) eqn:Hkn; [|done].
      rewrite same_header_sym in Hkn.
      by rewrite (same_header_trans _ _ _ Hkn Hk) in Hne.
    + by rewrite IH.
Qed.

Lemma filter_filter_implied (P Q : string * string → Prop)
    `{∀ x, Decision (P x)} `{∀ x, Decision (Q x)} l :
  (∀ x, Q x → P x) → filter Q (filter P l) = filter Q l.
Proof.
  intros HQP. induction l as [|x l IH]; [done|].
  rewrite !filter_cons.
  destruct (decide (P x)) as [HP|HP].
  - rewrite filter_cons. destruct (decide (Q x)); by rewrite IH.
  - rewrite decide_False by (intros HQ; by apply HP, HQP). done.
Qed.

(** A selection of entries that takes none of the name that is set is not
    changed by the setting. *)
Lemma filter_headers_set (Q : string * string → Prop)
    `{∀ x, Decision (Q x)} key value l :
  (∀ k v, Q (k, v) → same_header k key = false) →
  filter Q (headers_set key value l) = filter Q l.
Proof.
  intros HQ. induction l as [|[k v] l IH]; simpl.
  - rewrite filter_cons, decide_False; [done|].
    intros Hq. apply HQ in Hq. by rewrite same_header_refl in Hq.
  - destruct (same_header k key) eqn:Hk.
    + rewrite !filter_cons.
      rewrite decide_False
        by (intros Hq; apply HQ in Hq; by rewrite same_header_refl in Hq).
      rewrite decide_False by (intros Hq; apply HQ in Hq; congruence).
      apply filter_filter_implied. intros [k' v'] Hq. simpl. by eapply HQ.
    + rewrite !filter_cons. destruct (decide (Q (k, v))); by rewrite IH.
Qed.

(** After the setting the name has one entry. *)
Lemma headers_set_entries key value l :
  filter (λ kv, same_header kv.1 key = true) (headers_set key value l)
  = [(key, value)].
Proof.
  induction l as [|[k v] l IH]; simpl.
  - by rewrite filter_cons, decide_True by apply same_header_refl.
  - destruct (same_header k key) eqn:Hk.
    + rewrite filter_cons, decide_True by apply same_header_refl.
      f_equal. clear. induction l as [|[k v] l IH]; [done|].
      rewrite filter_cons. simpl.
      destruct (same_header k key) eqn:Hk.
      * by rewrite decide_False by done.
      * rewrite decide_True by done.
        rewrite filter_cons. simpl. by rewrite decide_False by congruence.
    + rewrite filter_cons. simpl. by rewrite decide_False by congruence.
Qed.

(** Setting the only entry of a name to what it is changes nothing. *)
Lemma headers_set_same key value l :
  filter (λ kv, same_header kv.1 key = true) l = [(key, value)] →
  headers_set key value l = l.
Proof.
  induction l as [|[k v] l IH]; [done|]. simpl. rewrite filter_cons. simpl.
  destruct (same_header k key) eqn:Hk.
  - rewrite decide_True by done. intros [= -> -> Hrest]. f_equal.
    clear -Hrest. induction l as [|[k v] l IH]; [done|].
    rewrite filter_cons in *. simpl in *.
    destruct (same_header k key) eqn:Hk.
    + by rewrite decide_True in Hrest by done.
    + rewrite decide_True by done.
      rewrite decide_False in Hrest by congruence. by rewrite IH.
  - rewrite decide_False by congruence. intros Hrest. by rewrite IH.
Qed.
End headers.

Lemma same_header_apart a b c :
  same_header a b = true → same_header a c = false → same_header b c = false.
Proof.
  intros Hab Hac. destruct (same_header b c) eqn:Hbc; [|done].
  by rewrite (same_header_trans _ _ _ Hab Hbc) in Hac.
Qed.

Lemma filter_equiv (P Q : string * string → Prop)
    `{∀ x, Decision (P x)} `{∀ x, Decision (Q x)} (l : header_list) :
  (∀ x, P x ↔ Q x) → filter P l = filter Q l.
Proof.
  intros HPQ. induction l as [|x l IH]; [done|].
  rewrite !filter_cons, IH.
  destruct (decide (P x)) as [HP|HP].
  - by rewrite decide_True by (by apply HPQ).
  - by rewrite decide_False by (intros HQ; by apply HP, HPQ).
Qed.

(** After the setting, the entries of the name under any of its spellings
    are the one that was set. *)
Lemma headers_set_entries_spelled key value name (l : header_list) :
  same_header key name = true →
  filter (λ kv, same_header kv.1 name = true) (headers_set key value l)
  = [(key, value)].
Proof.
  intros Hsame. rewrite <- (headers_set_entries key value l).
  apply filter_equiv. intros [k v]. simpl. split; intros Hk.
  - rewrite same_header_sym in Hsame. by eapply same_header_trans.
  - by eapply same_header_trans.
Qed.

(** The entries of another name are not touched. *)
Lemma headers_set_entries_other key value name (l : header_list) :
  same_header key name = false →
  filter (λ kv, same_header kv.1 name = true) (headers_set key value l)
  = filter (λ kv, same_header kv.1 name = true) l.
Proof.
  intros Hne. apply filter_headers_set. intros k v Hk.
  destruct (same_header k key) eqn:Hkk; [|done].
  rewrite same_header_sym in Hkk.
  by rewrite (same_header_trans _ _ _ Hkk Hk) in Hne.
Qed.

Lemma same_header_apart_l a b c :
  same_header a b = true → same_header c a = false → same_header c b = false.
Proof.
  intros Hab Hca. destruct (same_header c b) eqn:Hcb; [|done].
  rewrite same_header_sym in Hab.
  by rewrite (same_header_trans _ _ _ Hcb Hab) in Hca.
Qed.

(** X7: whatever headers the response had, under whatever spelling and
    however many times, after [security_headers] each of the four security
    headers is read with the value of the table, under any spelling of its
    name, and has one entry only; the status and the body are as before. *)
Theorem security_headers_sets {A} (response : Http.response A) name value
    spelled :
  (name, value) ∈ security_table →
  same_header name spelled = true →
  headers_get spelled (Http.headers (security_headers response)) = Some value
  ∧ headers_getlist spelled (Http.headers (security_headers response))
    = [value]
  ∧ Http.status (security_headers response) = Http.status response
  ∧ Http.body (security_headers response) = Http.body response.
Proof.
  intros Hin Hsame. unfold security_table in Hin.
  unfold security_headers, set_header, headers_getlist. simpl.
  repeat (apply elem_of_cons in Hin as [[= -> ->]|Hin]);
    [| | | | by apply elem_of_nil in Hin];
    rewrite ?headers_get_set_other
      by (eapply same_header_apart; [exact Hsame | reflexivity]);
    rewrite headers_get_set by done;
    rewrite ?headers_set_entries_other
      by (eapply same_header_apart_l; [exact Hsame | reflexivity]);
    by rewrite headers_set_entries_spelled.
Qed.

Lemma framed_response_secured :
  headers_get "x-FRAME-options"
    (Http.headers (security_headers framed_response)) = Some "DENY"
  ∧ headers_getlist "x-FRAME-options"
      (Http.headers (security_headers framed_response)) = ["DENY"]
  ∧ Http.status (security_headers framed_response)
    = Http.status framed_response
  ∧ Http.body (security_headers framed_response) = Http.body framed_response.
Proof.
  apply (security_headers_sets framed_response "X-Frame-Options" "DENY"
           "x-FRAME-options").
  - apply list_elem_of_further, list_elem_of_here.
  - reflexivity.
Defined.

Lemma security_name_false name key value :
  security_name name = false → (key, value) ∈ security_table →
  same_header name key = false.
Proof.
  unfold security_name. intros Hname Hin.
  destruct (same_header name key) eqn:Hsame; [|done].
  assert (existsb (λ kv, same_header name kv.1) security_table = true)
    as Hex; [|congruence].
  apply existsb_exists. exists (key, value).
  split; [by apply list_elem_of_In | done].
Qed.

(** X8: [security_headers] leaves the other headers alone: the entries
    whose name is none of the four are the same, in the same order, before
    and after, so that each of these names is read as before. *)
Theorem security_headers_keeps_others {A} (response : Http.response A) :
  filter (λ kv, security_name kv.1 = false)
    (Http.headers (security_headers response))
  = filter (λ kv, security_name kv.1 = false) (Http.headers response)
  ∧ ∀ name, security_name name = false →
      headers_get name (Http.headers (security_headers response))
      = headers_get name (Http.headers response)
      ∧ headers_getlist name (Http.headers (security_headers response))
        = headers_getlist name (Http.headers response).
Proof.
  unfold security_headers, set_header, headers_getlist. simpl. split.
  - rewrite !filter_headers_set; [done | | | |];
      intros k v Hk; simpl in Hk;
      (eapply security_name_false; [done|]); unfold security_table;
      repeat first [apply list_elem_of_here | apply list_elem_of_further].
  - intros name Hname.
    assert (∀ key value, (key, value) ∈ security_table →
                         same_header name key = false) as Hother
      by (intros key value; by apply security_name_false).
    assert (∀ key value, (key, value) ∈ security_table →
                         same_header key name = false) as Hother'
      by (intros key value Hin; rewrite same_header_sym; by eapply Hother).
    split.
    + rewrite !headers_get_set_other; [done | | | |];
        eapply Hother; unfold security_table;
        repeat first [apply list_elem_of_here | apply list_elem_of_further].
    + f_equal. rewrite !headers_set_entries_other; [done | | | |];
        eapply Hother'; unfold security_table;
        repeat first [apply list_elem_of_here | apply list_elem_of_further].
Qed.

Lemma framed_response_content_type :
  headers_get "content-type" (Http.headers (security_headers framed_response))
  = headers_get "content-type" (Http.headers framed_response)
  ∧ headers_getlist "content-type"
      (Http.headers (security_headers framed_response))
    = headers_getlist "content-type" (Http.headers framed_response).
Proof.
  apply (proj2 (security_headers_keeps_others framed_response)).
  reflexivity.
Defined.

(** X9: [security_headers] is idempotent: applied to a response it has
    already been applied to, it changes nothing, not even the order of the
    headers. *)
Theorem security_headers_idempotent {A} (response : Http.response A) :
  security_headers (security_headers response) = security_headers response.
Proof.
  destruct response as [status headers body].
  unfold security_headers, set_header. simpl. f_equal.
  set (h1 := headers_set "X-Content-Type-Options" "nosniff" headers).
  set (h2 := headers_set "X-Frame-Options" "DENY" h1).
  set (h3 := headers_set "X-XSS-Protection" "1; mode=block" h2).
  set (h4 := headers_set "Referrer-Policy"
               "strict-origin-when-cross-origin" h3).
  assert (headers_set "X-Content-Type-Options" "nosniff" h4 = h4) as ->.
  { apply headers_set_same. unfold h4, h3, h2, h1.
    rewrite !headers_set_entries_other by reflexivity.
    apply headers_set_entries. }
  assert (headers_set "X-Frame-Options" "DENY" h4 = h4) as ->.
  { apply headers_set_same. unfold h4, h3, h2.
    rewrite !headers_set_entries_other by reflexivity.
    apply headers_set_entries. }
  assert (headers_set "X-XSS-Protection" "1; mode=block" h4 = h4) as ->.
  { apply headers_set_same. unfold h4, h3.
    rewrite !headers_set_entries_other by reflexivity.
    apply headers_set_entries. }
  apply headers_set_same. unfold h4. apply headers_set_entries.
Qed.

(** ** The JSON routes *)

Lemma dumps_projects (ps : list Project.t) : dumps_ok ps = true.
Proof. induction ps as [|p ps IH]; [done|]. exact IH. Qed.

(** A row that passed the test of the loader for a category has a string
    key, so that its keys can be sorted exactly when [None] is not one of
    them. *)
Lemma loaded_rows_sortable (fs : filesystem) file_path expected_fields l rows :
  expected_fields ≠ [] →
  _load_from_csv fs file_path expected_fields = (l, Ok rows) →
  (dumps_ok rows : bool)
  = forallb (λ row : dict, bool_decide (row !! None = None)) rows.
Proof.
  intros Hne Hload.
  assert (Forall (λ row, has_fields expected_fields row = true) rows)
    as Hrows.
  { apply Forall_forall. intros row Hrow.
    by destruct (_load_from_csv_kept _ _ _ _ _ _ Hload Hrow). }
  clear Hload. unfold dumps_ok, dumps_list.
  induction Hrows as [|row rows Hrow _ IH]; [done|]. simpl.
  rewrite IH. f_equal. unfold dumps_ok, dumps_row, sortable.
  destruct expected_fields as [|k ks]; [done|]. simpl in Hrow.
  apply andb_true_iff in Hrow as [Hk _].
  apply bool_decide_eq_true in Hk as [v Hv].
  rewrite (bool_decide_eq_false_2 (delete None row = ∅)).
  - apply orb_false_r.
  - intros Hempty.
    assert (delete None row !! Some k = Some v) as Hdel
      by (by rewrite lookup_delete_ne).
    by rewrite Hempty, lookup_empty in Hdel.
Qed.

(** X10: each of the four JSON routes loads the three files anew, and all
    four raise when the projects do, the statistics included. When the
    projects load, the diagnostics of the three loaders have been logged;
    the projects route and the statistics route answer 200, the statistics
    being the fixed ones whatever the files hold; the certifications route
    and the blog route answer 200 with the rows as loaded when no row holds
    the key [None], and raise [TypeError] when one does: [jsonify] cannot
    sort the keys of a row that [DictReader] made of a line with surplus
    values. *)
Theorem api_routes_follow_projects (fs : filesystem) :
  ∃ lb blog lc certs,
    load_blog_posts fs = (lb, Ok blog)
    ∧ load_certifications fs = (lc, Ok certs)
    ∧ match load_projects fs with
      | (lp, Ok ps) =>
          api_projects fs = (lb ++ lp ++ lc, inr (Reply 200 ps))
          ∧ api_stats fs = (lb ++ lp ++ lc, inr (Reply 200 static_stats))
          ∧ api_certifications fs
            = (lb ++ lp ++ lc,
               if forallb (λ row : dict, bool_decide (row !! None = None))
                    certs
               then inr (Reply 200 certs) else inl TypeError)
          ∧ api_blog_posts fs
            = (lb ++ lp ++ lc,
               if forallb (λ row : dict, bool_decide (row !! None = None))
                    blog
               then inr (Reply 200 blog) else inl TypeError)
      | (lp, Raise e) =>
          api_projects fs = (lb ++ lp, inl (Propagated e))
          ∧ api_stats fs = (lb ++ lp, inl (Propagated e))
          ∧ api_certifications fs = (lb ++ lp, inl (Propagated e))
          ∧ api_blog_posts fs = (lb ++ lp, inl (Propagated e))
      end.
Proof.
  unfold api_projects, api_certifications, api_blog_posts, api_stats.
  unfold get_portfolio_data, load_blog_posts, load_certifications. simpl.
  destruct (_load_from_csv_returns
              (os_path_join "data" "blog_posts.csv") blog_posts_fields fs)
    as [blog Hblog].
  destruct (_load_from_csv_returns
              (os_path_join "data" "certifications.csv")
              certifications_fields fs)
    as [cert Hcert].
  destruct (_load_from_csv fs _ blog_posts_fields) as [lb rb] eqn:Eblog.
  destruct (_load_from_csv fs _ certifications_fields) as [lc rc] eqn:Ecert.
  simpl in *. subst rb rc. exists lb, blog, lc, cert.
  split; [done|]. split; [done|]. unfold bind.
  destruct (load_projects fs) as [lp [ps|e]]; simpl; [|done].
  rewrite !app_nil_r. unfold jsonify. simpl.
  rewrite dumps_projects.
  assert (certifications_fields ≠ []) as Hc by done.
  assert (blog_posts_fields ≠ []) as Hb by done.
  rewrite (loaded_rows_sortable _ _ _ _ _ Hc Ecert).
  rewrite (loaded_rows_sortable _ _ _ _ _ Hb Eblog).
  split; [done|]. split; [done|].
  split; by destruct (forallb _ _).
Qed.

(** The certifications route on a file with a surplus value: the row is
    loaded, with the surplus under the key [None], and [jsonify] raises. *)
Example surplus_certification_raises :
  load_certifications
    (fs_of "data/certifications.csv" surplus_certifications_file)
  = ([], Ok (rows_of surplus_certifications_file))
  ∧ (api_certifications
       (fs_of "data/certifications.csv" surplus_certifications_file)).2
    = inl TypeError
  ∧ (api_stats
       (fs_of "data/certifications.csv" surplus_certifications_file)).2
    = inr (Reply 200 static_stats).
Proof. by vm_compute. Qed.

(** ** White space *)

Lemma has_visible_lstrip s : has_visible (lstrip s) = has_visible s.
Proof.
  induction s as [|c s IH]; [done|]. simpl.
  destruct (is_space c) eqn:Hc; simpl; [done | by rewrite Hc].
Qed.

Lemma rstrip_empty s : rstrip s = "" ↔ has_visible s = false.
Proof.
  induction s as [|c s IH]; [done|]. simpl.
  destruct (rstrip s) as [|c' r] eqn:Hr.
  - destruct (is_space c); simpl.
    + split; [intros _; by apply IH | done].
    + split; discriminate.
  - split; [discriminate|]. intros Hv.
    apply orb_false_iff in Hv as [_ Hv]. apply IH in Hv. discriminate.
Qed.

(** Stripping leaves nothing exactly when the string is all white space. *)
Lemma strip_empty s : strip s = "" ↔ has_visible s = false.
Proof. unfold strip. by rewrite rstrip_empty, has_visible_lstrip. Qed.






(** ** [contact] *)

Lemma stripped_not_empty s :
  negb (bool_decide (strip s = "")) = has_visible s.
Proof.
  destruct (has_visible s) eqn:Hv.
  - apply negb_true_iff, bool_decide_eq_false. rewrite strip_empty.
    by rewrite Hv.
  - apply negb_false_iff, bool_decide_eq_true. by apply strip_empty.
Qed.

Lemma form_field_text members key :
  form_field (JObject members) key
  = match text_of members key with
    | Some s => inr (strip s)
    | None => inl (Contact.NoAttribute "strip")
    end.
Proof.
  unfold form_field, get_method, text_of.
  destruct (members !! key) as [[]|]; reflexivity.
Qed.

(** [contact] in closed form. *)
Lemma contact_outcome r :
  contact r
  = match r with
    | Contact.NotJson => ([Contact.Failure Contact.BadRequest], inr failed)
    | Contact.Json (JObject members) =>
        match text_of members "name", text_of members "email",
              text_of members "message" with
        | Some n, Some e, Some m =>
            if has_visible n && has_visible e && has_visible m
            then ([Contact.Submission (strip n) (strip e) (strip m)],
                  inr sent)
            else ([], inr required)
        | _, _, _ =>
            ([Contact.Failure (Contact.NoAttribute "strip")], inr failed)
        end
    | Contact.Json _ =>
        ([Contact.Failure (Contact.NoAttribute "get")], inr failed)
    end.
Proof.
  destruct r as [data|]; [|reflexivity].
  destruct data as [| | | | |members]; try reflexivity.
  unfold contact, contact_try, get_json.
  rewrite !form_field_text.
  destruct (text_of members "name") as [n|]; [|reflexivity].
  destruct (text_of members "email") as [e|]; [|reflexivity].
  destruct (text_of members "message") as [m|]; [|reflexivity].
  simpl. rewrite !stripped_not_empty, andb_true_r, andb_assoc.
  by destruct (has_visible n && has_visible e && has_visible m).
Qed.

Lemma text_of_string members key s :
  members !! key = Some (JString s) → text_of members key = Some s.
Proof. unfold text_of. by intros ->. Qed.

(** X12: [contact] answers 200 exactly to a JSON object whose [name],
    [email] and [message] are strings with a visible character each; it
    then logs the three stripped texts, and nothing else. *)
Theorem contact_accepts r :
  (∀ members n e m,
     r = Contact.Json (JObject members) →
     members !! "name" = Some (JString n) →
     members !! "email" = Some (JString e) →
     members !! "message" = Some (JString m) →
     has_visible n = true → has_visible e = true → has_visible m = true →
     contact r
     = ([Contact.Submission (strip n) (strip e) (strip m)], inr sent))
  ∧ (∀ l a,
       contact r = (l, inr (Reply 200 a)) →
       ∃ members n e m,
         r = Contact.Json (JObject members)
         ∧ members !! "name" = Some (JString n)
         ∧ members !! "email" = Some (JString e)
         ∧ members !! "message" = Some (JString m)
         ∧ has_visible n = true ∧ has_visible e = true
         ∧ has_visible m = true).
Proof.
  split.
  - intros members n e m -> Hn He Hm Vn Ve Vm. rewrite contact_outcome.
    rewrite (text_of_string _ _ _ Hn), (text_of_string _ _ _ He),
      (text_of_string _ _ _ Hm).
    by rewrite Vn, Ve, Vm.
  - intros l a. rewrite contact_outcome.
    destruct r as [data|]; [|discriminate].
    destruct data as [| | | | |members]; try discriminate.
    unfold text_of.
    destruct (members !! "name") as [[| | |n| |]|] eqn:Hn; try discriminate;
      destruct (members !! "email") as [[| | |e| |]|] eqn:He;
      try discriminate;
      destruct (members !! "message") as [[| | |m| |]|] eqn:Hm;
      try discriminate;
      simpl; rewrite ?andb_false_r; try discriminate.
    destruct (has_visible n) eqn:Vn, (has_visible e) eqn:Ve,
      (has_visible m) eqn:Vm; try discriminate.
    intros _. by exists members, n, e, m.
Qed.

Lemma filled_form_accepted :
  contact filled_form
  = ([Contact.Submission (strip "  Ada ") (strip "ada@example.com")
        (strip "Hello")],
     inr sent).
Proof.
  apply (proj1 (contact_accepts filled_form)
           {[ "name" := JString "  Ada ";
              "email" := JString "ada@example.com";
              "message" := JString "Hello" ]});
    reflexivity.
Defined.

(** X13: [contact] answers 400 exactly to a JSON object in which each of
    [name], [email] and [message] is a string or is absent, and at least
    one of them is absent or without a visible character; it then logs
    nothing. *)
Theorem contact_requires_all_fields r :
  (∀ members n e m,
     r = Contact.Json (JObject members) →
     text_of members "name" = Some n →
     text_of members "email" = Some e →
     text_of members "message" = Some m →
     has_visible n && has_visible e && has_visible m = false →
     contact r = ([], inr required))
  ∧ (∀ l a,
       contact r = (l, inr (Reply 400 a)) →
       ∃ members n e m,
         r = Contact.Json (JObject members)
         ∧ text_of members "name" = Some n
         ∧ text_of members "email" = Some e
         ∧ text_of members "message" = Some m
         ∧ has_visible n && has_visible e && has_visible m = false).
Proof.
  split.
  - intros members n e m -> Hn He Hm Hv. rewrite contact_outcome.
    by rewrite Hn, He, Hm, Hv.
  - intros l a. rewrite contact_outcome.
    destruct r as [data|]; [|discriminate].
    destruct data as [| | | | |members]; try discriminate.
    destruct (text_of members "name") as [n|] eqn:Hn; [|discriminate].
    destruct (text_of members "email") as [e|] eqn:He; [|discriminate].
    destruct (text_of members "message") as [m|] eqn:Hm; [|discriminate].
    destruct (has_visible n && has_visible e && has_visible m) eqn:Hv;
      [discriminate|].
    intros _. by exists members, n, e, m.
Qed.

Lemma partial_form_rejected : contact partial_form = ([], inr required).
Proof.
  apply (proj1 (contact_requires_all_fields partial_form)
           {[ "name" := JString "Ada"; "message" := JString "Hello" ]}
           "Ada" "" "Hello");
    reflexivity.
Defined.


(** ** [create_app] *)

(** X15: the configuration fails to build in one case only: [MAIL_PORT] is
    set to a string that is not empty and that [int] does not read. Unset
    or empty, the variable is not handed to [int]. *)
Theorem app_config_fails_iff (py_int : string → option Z) (env : environ) :
  app_config py_int env = None
  ↔ ∃ v, env !! "MAIL_PORT" = Some v ∧ v ≠ "" ∧ py_int v = None.
Proof.
  unfold app_config, mail_port.
  destruct (env !! "MAIL_PORT") as [v|] eqn:Hv.
  - destruct (decide (v = "")) as [->|Hne].
    + simpl. split; [discriminate|]. by intros (v & [= <-] & ? & _).
    + rewrite bool_decide_eq_false_2 by done.
      destruct (py_int v) eqn:Hint.
      * split; [discriminate|]. intros (v' & [= <-] & _ & ?). congruence.
      * split; [|done]. intros _. by exists v.
  - split; [discriminate|]. by intros (v & ? & _).
Qed.

(** X16: [MAIL_USE_TLS] is on when the variable is unset, and when it is
    set to one of the words true, on and 1, up to the case of the letters;
    set to anything else, the empty string included, it is off. *)
Theorem mail_use_tls_iff (py_int : string → option Z) (env : environ) c :
  app_config py_int env = Some c →
  (Config.MAIL_USE_TLS c = true
   ↔ env !! "MAIL_USE_TLS" = None
     ∨ ∃ v, env !! "MAIL_USE_TLS" = Some v
            ∧ (equal_ignoring_case v "true" = true
               ∨ equal_ignoring_case v "on" = true
               ∨ equal_ignoring_case v "1" = true))
  ∧ (env !! "MAIL_USE_TLS" = Some "" → Config.MAIL_USE_TLS c = false).
Proof.
  unfold app_config. destruct (mail_port py_int env); [|discriminate].
  intros [= <-]. simpl. unfold mail_use_tls, getenv.
  destruct (env !! "MAIL_USE_TLS") as [v|].
  - rewrite bool_decide_eq_true. split.
    + rewrite !elem_of_cons, elem_of_nil. split.
      * intros H. right. exists v. split; [done|].
        rewrite !equal_ignoring_case_lower. simpl. tauto.
      * intros [?|(v' & [= <-] & H)]; [done|].
        rewrite !equal_ignoring_case_lower in H. simpl in H. tauto.
    + by intros [= ->].
  - split; [|done]. split; [by left | by intros _].
Qed.

Lemma default_mail_use_tls :
  (Config.MAIL_USE_TLS default_config = true
   ↔ (∅ : environ) !! "MAIL_USE_TLS" = None
     ∨ ∃ v, (∅ : environ) !! "MAIL_USE_TLS" = Some v
            ∧ (equal_ignoring_case v "true" = true
               ∨ equal_ignoring_case v "on" = true
               ∨ equal_ignoring_case v "1" = true))
  ∧ ((∅ : environ) !! "MAIL_USE_TLS" = Some ""
     → Config.MAIL_USE_TLS default_config = false).
Proof. apply (mail_use_tls_iff no_int ∅ default_config). reflexivity. Defined.

(** X17: unset and empty variables. [MAIL_SERVER] and [MAIL_PORT] fall back
    to their defaults when they are unset and when they are empty;
    [SECRET_KEY] falls back to the development key only when it is unset: set
    to the empty string, the key is empty. The session cookie is secure
    exactly when [ENV] is the word production, as written. *)
Theorem unset_and_empty_variables (py_int : string → option Z)
    (env : environ) c :
  app_config py_int env = Some c →
  ((env !! "MAIL_SERVER" = None ∨ env !! "MAIL_SERVER" = Some "") →
   Config.MAIL_SERVER c = "smtp.gmail.com")
  ∧ ((env !! "MAIL_PORT" = None ∨ env !! "MAIL_PORT" = Some "") →
     Config.MAIL_PORT c = 587%Z)
  ∧ (env !! "SECRET_KEY" = None →
     Config.SECRET_KEY c = "dev-key-change-in-production")
  ∧ (∀ v, env !! "SECRET_KEY" = Some v → Config.SECRET_KEY c = v)
  ∧ (Config.SESSION_COOKIE_SECURE c = true
     ↔ env !! "ENV" = Some "production").
Proof.
  unfold app_config, mail_port.
  destruct (env !! "MAIL_PORT") as [port|] eqn:Hport.
  - destruct (decide (port = "")) as [->|Hne]; simpl.
    + intros [= <-]. simpl. unfold environ_or, getenv.
      split; [by intros [-> | ->]|]. split; [done|].
      split; [by intros ->|]. split; [by intros v ->|].
      apply bool_decide_eq_true.
    + rewrite bool_decide_eq_false_2 by done.
      destruct (py_int port) as [n|]; [|discriminate].
      intros [= <-]. simpl. unfold environ_or, getenv.
      split; [by intros [-> | ->]|].
      split; [by intros [?|[= ?]]|].
      split; [by intros ->|]. split; [by intros v ->|].
      apply bool_decide_eq_true.
  - intros [= <-]. simpl. unfold environ_or, getenv.
    split; [by intros [-> | ->]|]. split; [done|].
    split; [by intros ->|]. split; [by intros v ->|].
    apply bool_decide_eq_true.
Qed.

Lemma default_config_variables :
  (((∅ : environ) !! "MAIL_SERVER" = None
    ∨ (∅ : environ) !! "MAIL_SERVER" = Some "") →
   Config.MAIL_SERVER default_config = "smtp.gmail.com")
  ∧ (((∅ : environ) !! "MAIL_PORT" = None
      ∨ (∅ : environ) !! "MAIL_PORT" = Some "") →
     Config.MAIL_PORT default_config = 587%Z)
  ∧ ((∅ : environ) !! "SECRET_KEY" = None →
     Config.SECRET_KEY default_config = "dev-key-change-in-production")
  ∧ (∀ v, (∅ : environ) !! "SECRET_KEY" = Some v →
          Config.SECRET_KEY default_config = v)
  ∧ (Config.SESSION_COOKIE_SECURE default_config = true
     ↔ (∅ : environ) !! "ENV" = Some "production").
Proof.
  apply (unset_and_empty_variables no_int ∅ default_config). reflexivity.
Defined.

(** ** Lines with surplus values *)

Lemma zip_take_header (fieldnames row : list string) :
  zip fieldnames (take (length fieldnames) row) = zip fieldnames row.
Proof.
  revert row. induction fieldnames as [|f fieldnames IH]; intros row;
    [done|].
  destruct row as [|v row]; [done|]. simpl. by rewrite IH.
Qed.

(** [make_project] reads a row under column names only. *)
Lemma make_project_ext (row1 row2 : dict) :
  (∀ k, row1 !! Some k = row2 !! Some k) →
  make_project row1 = make_project row2.
Proof.
  intros Hrows. unfold make_project, getitem. by rewrite !Hrows.
Qed.

(** X18: a line with more values than the header has columns is not
    skipped either: its row holds the surplus values, as a list, under the
    key [None], and the record [load_projects] makes of it is the record of
    the line cut to the length of the header. *)
Theorem surplus_values_are_ignored (header line : list string) :
  (length header < length line)%nat →
  DictReader_row header line !! None
  = Some (VList (drop (length header) line))
  ∧ (∀ k, DictReader_row header line !! Some k
          = DictReader_row header (take (length header) line) !! Some k)
  ∧ make_project (DictReader_row header line)
    = make_project (DictReader_row header (take (length header) line)).
Proof.
  intros Hlong.
  assert (∀ k, DictReader_row header line !! Some k
               = DictReader_row header (take (length header) line)
                   !! Some k) as Hsame.
  { intros k. unfold DictReader_row, dict_zip.
    rewrite length_take, Nat.min_l by lia.
    rewrite Nat.ltb_irrefl.
    destruct (Nat.ltb_spec (length header) (length line)); [|lia].
    rewrite lookup_insert_ne by done. by rewrite zip_take_header. }
  split; [|split; [done | by apply make_project_ext]].
  unfold DictReader_row.
  destruct (Nat.ltb_spec (length header) (length line)); [|lia].
  apply lookup_insert_eq.
Qed.

Lemma long_project_line_cut :
  DictReader_row projects_header long_project_line !! None
  = Some (VList (drop (length projects_header) long_project_line))
  ∧ (∀ k, DictReader_row projects_header long_project_line !! Some k
          = DictReader_row projects_header
              (take (length projects_header) long_project_line) !! Some k)
  ∧ make_project (DictReader_row projects_header long_project_line)
    = make_project
        (DictReader_row projects_header
           (take (length projects_header) long_project_line)).
Proof.
  apply (surplus_values_are_ignored projects_header long_project_line).
  vm_compute. lia.
Defined.
